(** * PNG Bob Animator: a shallow embedding of [png_bob_animator.py]

    The development follows the class [PNGBobAnimator]: the motion model
    and compositor of [create_frame], the two frame schedulers, the GIF
    writers with their fallback, the loader and the two setters.

    Conventions of the embedding.
    - Python [int] is [Z].  A Python [float] is an IEEE 754 binary64
      number, [float] below: the motion model ([bob_offset64]), the
      frame it positions ([create_frame64]) and the preview are computed
      with the roundings, overflows and conversions of double
      arithmetic; [math.sin] is the sine of the host's C library, a
      parameter ([Libm]).
    - The schedulers, the writers and the pipelines do not look at the
      value of the offset.  They are stated over [create_frame], which
      computes the offset in exact real arithmetic ([math.pi] as [PI],
      [math.sin] as [sin]): what is proved of them is about which frames
      are made, in which order, and where they go.  [create_frame]
      raises for a frame count of 0 and for a canvas size below 0 only;
      that it returns says nothing of a bob height or a frame index
      beyond the range of a double, nor of a canvas Pillow refuses.
    - A raised exception is the [Raise] branch of [result]; methods that
      mutate [self] or the disk live in the state-and-exception monad [M],
      in which the state reached before a [raise] is kept.
    - [print] calls are dropped: nothing read by the program depends on
      them.
    - Pillow is not part of the repository.  [Image.new], [Image.paste],
      [Image.convert('RGBA')] and [Image.save] are modelled from Pillow's
      documented behaviour; decoding, adaptive palette construction and
      quantization are left abstract in the class [Pillow]. *)

From Stdlib Require Import ZArith Reals Lra Lia String.
From Stdlib Require SpecFloat.
From stdpp Require Import base option list gmap strings.

Open Scope Z_scope.

(** ** Python exceptions and results *)

Inductive exn : Type :=
| ZeroDivisionError
| IndexError
| ValueError (msg : string)
| FileNotFoundError (path : string)
| UnidentifiedImageError (path : string)
| PermissionError (path : string)
| OverflowError (msg : string).

(** The class of an exception, which is what an [except] clause or a
    caller dispatches on. *)
Inductive exn_class : Type :=
| CZeroDivisionError
| CIndexError
| CValueError
| CFileNotFoundError
| CUnidentifiedImageError
| CPermissionError
| COverflowError.

Definition class_of (e : exn) : exn_class :=
  match e with
  | ZeroDivisionError => CZeroDivisionError
  | IndexError => CIndexError
  | ValueError _ => CValueError
  | FileNotFoundError _ => CFileNotFoundError
  | UnidentifiedImageError _ => CUnidentifiedImageError
  | PermissionError _ => CPermissionError
  | OverflowError _ => COverflowError
  end.

(** [str(e)].  An [OSError] shows its file name as Python's [repr] does;
    the quotes written here are those of a name without quote, backslash
    or unprintable character. *)
Definition exn_str (e : exn) : string :=
  match e with
  | ZeroDivisionError => "division by zero"
  | IndexError => "list index out of range"
  | ValueError msg => msg
  | FileNotFoundError p => "[Errno 2] No such file or directory: '" +:+ p +:+ "'"
  | UnidentifiedImageError p => "cannot identify image file '" +:+ p +:+ "'"
  | PermissionError p => "[Errno 13] Permission denied: '" +:+ p +:+ "'"
  | OverflowError msg => msg
  end.

Inductive result (A : Type) : Type :=
| Ok (a : A)
| Raise (e : exn).

Arguments Ok {A} a.
Arguments Raise {A} e.

Definition result_bind {A B} (r : result A) (k : A -> result B) : result B :=
  match r with
  | Ok a => k a
  | Raise e => Raise e
  end.

(** ** Motion model in exact arithmetic ([create_frame], lines 81-83) *)

(** Lines 81-83 with every float replaced by the real number it stands
    for.  The double-precision computation is [bob_offset64] below. *)

(** [int(x)]: truncation toward zero. *)
Definition py_int (x : R) : Z :=
  if Rle_dec 0 x then Int_part x else - Int_part (- x).

(** [angle = (frame_index / self.frame_count) * 2 * math.pi].  True
    division by zero raises. *)
Definition bob_angle (frame_index frame_count : Z) : result R :=
  if frame_count =? 0 then Raise ZeroDivisionError
  else Ok ((IZR frame_index / IZR frame_count) * 2 * PI)%R.

(** [bob_offset = int(math.sin(angle) * self.bob_height)] *)
Definition bob_offset (frame_index frame_count bob_height : Z) : result Z :=
  result_bind (bob_angle frame_index frame_count)
    (fun angle => Ok (py_int (sin angle * IZR bob_height))).

(** [z] is [x] cut toward zero: the integer of largest magnitude not
    beyond [x], on the side of [x]. *)
Definition is_truncation (x : R) (z : Z) : Prop :=
  (Rabs (IZR z) <= Rabs x < Rabs (IZR z) + 1)%R /\ (0 <= x * IZR z)%R.

(** The motion model as the specification words it: the offset is a
    nearest integer of [sin(angle) * bobHeight].  Stated as a relation so
    that no tie-breaking rule is imposed on [round]. *)
Definition is_rounding (x : R) (z : Z) : Prop :=
  (Rabs (IZR z - x) <= 1 / 2)%R.

Definition spec_offset (frame_index frame_count bob_height z : Z) : Prop :=
  is_rounding (sin (2 * PI * IZR frame_index / IZR frame_count) * IZR bob_height) z.

(** ** Double-precision floats *)

(** A Python [float] is an IEEE 754 binary64 number.  [Finite m e] is the
    number [m * 2^e].  The sign of a zero is not kept: the products and
    [int()] give the same integer for both zeros. *)
Inductive float : Type :=
| Finite (m e : Z)
| Infinity (negative : bool)
| NaN.

(** The number of bits of [|m|]. *)
Definition digits (m : Z) : Z :=
  if m =? 0 then 0 else Z.log2 (Z.abs m) + 1.

(** [n / 2^k] rounded to the nearest integer, a tie to the even one, for
    [0 <= n] and [0 < k]. *)
Definition round_half_even (n k : Z) : Z :=
  let q := n `div` 2 ^ k in
  let r := n `mod` 2 ^ k in
  let half := 2 ^ (k - 1) in
  if r <? half then q
  else if half <? r then q + 1
  else if Z.even q then q else q + 1.

(** The binary64 number nearest to [m * 2^e], a tie to the even
    mantissa: 53 bits of mantissa, the exponent of the last bit between
    -1074 (subnormal numbers) and 971, infinity from [2^1024] on. *)
Definition round64 (m e : Z) : float :=
  if m =? 0 then Finite 0 0
  else
    let e' := Z.max (digits m + e - 53) (-1074) in
    let a := if e' <=? e then Z.abs m * 2 ^ (e - e')
             else round_half_even (Z.abs m) (e' - e) in
    let '(a, e') := if a =? 2 ^ 53 then (2 ^ 52, e' + 1) else (a, e') in
    if a =? 0 then Finite 0 0
    else if 971 <? e' then Infinity (m <? 0)
    else Finite (Z.sgn m * a) e'.

(** The binary64 number nearest to [a / b], for [b <> 0].  The quotient
    is taken with at least 55 bits and one more bit that says whether
    anything was left, which rounds as the exact quotient does. *)
Definition round_quotient (a b : Z) : float :=
  let k := Z.max 0 (digits b - digits a + 55) in
  let n := Z.abs a * 2 ^ k in
  let q := n `div` Z.abs b in
  let sticky := if n `mod` Z.abs b =? 0 then 0 else 1 in
  round64 (Z.sgn a * Z.sgn b * (2 * q + sticky)) (- k - 1).

(** [x * y] on two floats. *)
Definition float_mul (x y : float) : float :=
  match x, y with
  | NaN, _ | _, NaN => NaN
  | Finite m1 e1, Finite m2 e2 => round64 (m1 * m2) (e1 + e2)
  | Infinity s, Finite m _ | Finite m _, Infinity s =>
      if m =? 0 then NaN else Infinity (xorb s (m <? 0))
  | Infinity s1, Infinity s2 => Infinity (xorb s1 s2)
  end.

(** [a / b] on two ints: the correctly rounded quotient. *)
Definition int_true_divide (a b : Z) : result float :=
  if b =? 0 then Raise ZeroDivisionError
  else
    match round_quotient a b with
    | Infinity _ => Raise (OverflowError "integer division result too large for a float")
    | q => Ok q
    end.

(** The conversion of the int operand of a float operation. *)
Definition float_of_int (n : Z) : result float :=
  match round64 n 0 with
  | Infinity _ => Raise (OverflowError "int too large to convert to float")
  | x => Ok x
  end.

(** [x * n] and [n * x] for a float [x] and an int [n]. *)
Definition float_mul_int (x : float) (n : Z) : result float :=
  result_bind (float_of_int n) (fun y => Ok (float_mul x y)).

Definition int_mul_float (n : Z) (x : float) : result float :=
  result_bind (float_of_int n) (fun y => Ok (float_mul y x)).

(** [int(x)] on a float: truncation toward zero. *)
Definition int_of_float (x : float) : result Z :=
  match x with
  | Finite m e => Ok (if 0 <=? e then m * 2 ^ e else m `quot` 2 ^ (- e))
  | Infinity _ => Raise (OverflowError "cannot convert float infinity to integer")
  | NaN => Raise (ValueError "cannot convert float NaN to integer")
  end.

(** [math.pi], [0x1.921fb54442d18p+1]. *)
Definition math_pi : float := Finite 7074237752028440 (-51).

(** The sine of the C library of the host, which is not computed here. *)
Class Libm : Type := {
  libm_sin : float -> float
}.

(** [math.sin(x)]: the C sine, with Python's check of its result. *)
Definition math_sin {lm : Libm} (x : float) : result float :=
  match x with
  | Finite _ _ =>
      match libm_sin x with
      | Finite m e => Ok (Finite m e)
      | _ => Raise (ValueError "math domain error")
      end
  | Infinity _ => Raise (ValueError "math domain error")
  | NaN => Ok NaN
  end.

(** ** Motion model ([create_frame], lines 81-83) *)

(** [angle = (frame_index / self.frame_count) * 2 * math.pi] *)
Definition bob_angle64 (frame_index frame_count : Z) : result float :=
  result_bind (int_true_divide frame_index frame_count) (fun turn =>
  result_bind (float_mul_int turn 2) (fun turn2 =>
  Ok (float_mul turn2 math_pi))).

(** [bob_offset = int(math.sin(angle) * self.bob_height)] *)
Definition bob_offset64 {lm : Libm} (frame_index frame_count bob_height : Z)
    : result Z :=
  result_bind (bob_angle64 frame_index frame_count) (fun angle =>
  result_bind (math_sin angle) (fun s =>
  result_bind (float_mul_int s bob_height) (fun product =>
  int_of_float product))).

(** ** Pillow images *)

Inductive Mode : Type := ModeL | ModeLA | ModeRGB | ModeRGBA.

#[global] Instance Mode_eq_dec : EqDecision Mode.
Proof. solve_decision. Defined.

Definition bands (m : Mode) : nat :=
  match m with
  | ModeL => 1
  | ModeLA => 2
  | ModeRGB => 3
  | ModeRGBA => 4
  end%nat.

(** A pixel is the list of its band values, a raster the list of its
    rows, top row first. *)
Abbreviation Pixel := (list Z).

Record Image : Type := mkImage {
  mode : Mode;
  width : Z;
  height : Z;
  data : list (list Pixel)
}.

Definition well_formed (im : Image) : Prop :=
  0 <= width im /\ 0 <= height im /\
  length (data im) = Z.to_nat (height im) /\
  Forall (fun row =>
    length row = Z.to_nat (width im) /\
    Forall (fun px =>
      length px = bands (mode im) /\ Forall (fun c => 0 <= c <= 255) px) row)
    (data im).

Definition in_image (im : Image) (x y : Z) : bool :=
  (0 <=? x) && (x <? width im) && (0 <=? y) && (y <? height im).

Definition getpixel (im : Image) (x y : Z) : option Pixel :=
  if in_image im x y
  then row ← data im !! Z.to_nat y; row !! Z.to_nat x
  else None.

Definition transparent : Pixel := [0; 0; 0; 0].

(** [Image.new(mode, (w, h), color)] *)
Definition Image_new (m : Mode) (size : Z * Z) (color : Pixel) : result Image :=
  let '(w, h) := size in
  if (w <? 0) || (h <? 0)
  then Raise (ValueError "Width and height must be >= 0")
  else Ok (mkImage m w h (replicate (Z.to_nat h) (replicate (Z.to_nat w) color))).

(** [img.convert('RGBA')]: grey levels are spread over the colour bands
    and a missing alpha band is filled with 255. *)
Definition to_rgba (m : Mode) (px : Pixel) : Pixel :=
  match m with
  | ModeL => let l := default 0 (px !! 0%nat) in [l; l; l; 255]
  | ModeLA =>
      let l := default 0 (px !! 0%nat) in [l; l; l; default 0 (px !! 1%nat)]
  | ModeRGB =>
      [default 0 (px !! 0%nat); default 0 (px !! 1%nat);
       default 0 (px !! 2%nat); 255]
  | ModeRGBA => px
  end.

Definition convert_RGBA (im : Image) : Image :=
  mkImage ModeRGBA (width im) (height im) (map (map (to_rgba (mode im))) (data im)).

(** Pillow's fixed-point blend ([ImagingUtils.h]):
    [DIV255(a) = (tmp = a + 128, ((tmp >> 8) + tmp) >> 8)] and
    [BLEND8(mask, in1, in2) = DIV255(in1 * (255 - mask) + in2 * mask)]. *)
Definition DIV255 (a : Z) : Z :=
  let tmp := a + 128 in Z.shiftr (Z.shiftr tmp 8 + tmp) 8.

Definition BLEND8 (mask in1 in2 : Z) : Z :=
  DIV255 (in1 * (255 - mask) + in2 * mask).

Definition blend (a : Z) (out inp : Pixel) : Pixel :=
  zip_with (BLEND8 a) out inp.

(** The matte value a mask image contributes at a pixel; an RGB image is
    not a valid mask. *)
Definition mask_alpha (m : Mode) (px : Pixel) : option Z :=
  match m with
  | ModeL => px !! 0%nat
  | ModeLA => px !! 1%nat
  | ModeRGBA => px !! 3%nat
  | ModeRGB => None
  end.

Definition paste_pixel (src : Image) (mask : option Image) (bx by' : Z)
    (x y : nat) (out : Pixel) : Pixel :=
  let sx := Z.of_nat x - bx in
  let sy := Z.of_nat y - by' in
  match getpixel src sx sy with
  | None => out
  | Some inp =>
      match mask with
      | None => inp
      | Some m =>
          match getpixel m sx sy ≫= mask_alpha (mode m) with
          | Some a => blend a out inp
          | None => out
          end
      end
  end.

(** [dst.paste(im, (bx, by), mask)] onto an RGBA destination: the source
    is first converted to the destination's mode, the box is clipped to
    the destination, and with a mask every band is blended by the mask's
    matte.  Python mutates [dst]; every destination in this program is a
    fresh local canvas, so the updated image is returned instead. *)
Definition paste (dst im : Image) (box : Z * Z) (mask : option Image)
    : result Image :=
  let '(bx, by') := box in
  let src := if decide (mode im = ModeRGBA) then im else convert_RGBA im in
  let bad_mask :=
    match mask with
    | Some m =>
        if negb ((width m =? width im) && (height m =? height im))
        then Some (ValueError "images do not match")
        else if decide (mode m = ModeRGB)
        then Some (ValueError "bad transparency mask")
        else None
    | None => None
    end in
  match bad_mask with
  | Some e => Raise e
  | None =>
      Ok (mkImage (mode dst) (width dst) (height dst)
            (imap (fun y row => imap (fun x out => paste_pixel src mask bx by' x y out) row)
                  (data dst)))
  end.

(** A palette image, as produced by adaptive conversion and by
    quantization: a colour table and one table index per pixel. *)
Record PImage : Type := mkPImage {
  p_width : Z;
  p_height : Z;
  p_palette : list Z;
  p_data : list (list Z)
}.

(** ** Files *)

Inductive Frames : Type :=
| RGBAFrames (l : list Image)
| PaletteFrames (l : list PImage).

(** A file written by [first.save(path, save_all=True,
    append_images=rest, ...)], kept as the call that wrote it: the frame
    sequence handed to the writer and its keyword arguments.  What the
    encoder makes of them (it may merge equal neighbouring frames) is
    not modelled. *)
Record Gif : Type := mkGif {
  gif_frames : Frames;
  gif_duration : Z;
  gif_loop : Z;
  gif_disposal : Z;
  gif_optimize : bool;
  gif_transparency : option Z
}.

Inductive File : Type :=
| FileBytes (content : list Z)
| FileGif (g : Gif).

Record Disk : Type := mkDisk {
  files : gmap string File;
  writable : string -> bool
}.

(** The parts of Pillow whose result is not computed here. *)
Class Pillow : Type := {
  (** the decoder behind [Image.open]: [None] when the file is not a
      raster image it can identify *)
  decode : File -> option Image;
  (** [im.convert('P', palette=Image.ADAPTIVE, colors=n)] *)
  convert_adaptive : Image -> Z -> result PImage;
  (** [frame.quantize(palette=p)] *)
  quantize : Image -> PImage -> result PImage
}.

(** [Image.open(path)] *)
Definition Image_open {pil : Pillow} (d : Disk) (path : string) : result Image :=
  match files d !! path with
  | None => Raise (FileNotFoundError path)
  | Some f =>
      match decode f with
      | Some im => Ok im
      | None => Raise (UnidentifiedImageError path)
      end
  end.

(** [first.save(path, save_all=True, append_images=rest, **kw)].  A file
    that is written replaces what the path held.  Of the ways the writer
    can fail, one is modelled, a destination that the disk refuses;
    [writable] does not say that a real writer would accept the path. *)
Definition Image_save (path : string) (g : Gif) (d : Disk) : result Disk :=
  if writable d path
  then Ok (mkDisk (<[path := FileGif g]> (files d)) (writable d))
  else Raise (PermissionError path).

(** ** [os.path] *)

Definition is_sep (c : Ascii.ascii) : bool := Ascii.eqb c (Ascii.ascii_of_nat 47).
Definition is_dot (c : Ascii.ascii) : bool := Ascii.eqb c (Ascii.ascii_of_nat 46).

Fixpoint has_char (p : Ascii.ascii -> bool) (s : string) : bool :=
  match s with
  | EmptyString => false
  | String c rest => p c || has_char p rest
  end.

Fixpoint all_chars (p : Ascii.ascii -> bool) (s : string) : bool :=
  match s with
  | EmptyString => true
  | String c rest => p c && all_chars p rest
  end.

(** [os.path.basename(p)]: what follows the last separator. *)
Fixpoint basename (p : string) : string :=
  match p with
  | EmptyString => EmptyString
  | String c rest =>
      if has_char is_sep rest then basename rest
      else if is_sep c then rest else p
  end.

(** [s[:s.rfind('.')]] for an [s] that contains a dot. *)
Fixpoint cut_last_dot (s : string) : string :=
  match s with
  | EmptyString => EmptyString
  | String c rest =>
      if has_char is_dot rest then String c (cut_last_dot rest) else EmptyString
  end.

(** [os.path.splitext(p)[0]] for a [p] without separator: the last dot
    starts the extension unless only dots precede it. *)
Definition splitext_root (p : string) : string :=
  if has_char is_dot p then
    let root := cut_last_dot p in
    if all_chars is_dot root then p else root
  else p.

(** ** The animator *)

Record Animator : Type := mkAnimator {
  png_path : string;
  output_path : string;
  frames : list Image;
  frame_count : Z;
  bob_height : Z;
  frame_duration : Z;
  use_multiprocessing : bool;
  use_numpy_acceleration : bool;
  optimize_gif : bool;
  max_workers : Z;
  _cached_canvas_size : option (Z * Z)
}.

Definition _get_default_output_path (png_path : string) : string :=
  splitext_root (basename png_path) +:+ "_bobbing.gif".

(** [PNGBobAnimator(png_path, output_path)]; [cpu_count] is the value of
    [multiprocessing.cpu_count()] on the host. *)
Definition __init__ (cpu_count : Z) (png_path : string)
    (output_path : option string) : Animator :=
  {| png_path := png_path;
     output_path :=
       match output_path with
       | Some (String c rest) => String c rest
       | _ => _get_default_output_path png_path
       end;
     frames := [];
     frame_count := 30;
     bob_height := 10;
     frame_duration := 80;
     use_multiprocessing := true;
     use_numpy_acceleration := true;
     optimize_gif := true;
     max_workers := Z.min cpu_count 8;
     _cached_canvas_size := None |}.

Definition with_frames (s : Animator) (fs : list Image) : Animator :=
  {| png_path := png_path s;
     output_path := output_path s;
     frames := fs;
     frame_count := frame_count s;
     bob_height := bob_height s;
     frame_duration := frame_duration s;
     use_multiprocessing := use_multiprocessing s;
     use_numpy_acceleration := use_numpy_acceleration s;
     optimize_gif := optimize_gif s;
     max_workers := max_workers s;
     _cached_canvas_size := _cached_canvas_size s |}.

(** The attribute updates of [set_animation_params]: an argument left at
    its default [None] keeps the attribute. *)
Definition update_animation_params (s : Animator)
    (frame_count' bob_height' frame_duration' : option Z) : Animator :=
  {| png_path := png_path s;
     output_path := output_path s;
     frames := frames s;
     frame_count := default (frame_count s) frame_count';
     bob_height := default (bob_height s) bob_height';
     frame_duration := default (frame_duration s) frame_duration';
     use_multiprocessing := use_multiprocessing s;
     use_numpy_acceleration := use_numpy_acceleration s;
     optimize_gif := optimize_gif s;
     max_workers := max_workers s;
     _cached_canvas_size := _cached_canvas_size s |}.

(** The attribute updates of [set_performance_options]. *)
Definition update_performance_options (cpu_count : Z) (s : Animator)
    (use_multiprocessing' use_numpy_acceleration' optimize_gif' : bool)
    (max_workers' : option Z) : Animator :=
  {| png_path := png_path s;
     output_path := output_path s;
     frames := frames s;
     frame_count := frame_count s;
     bob_height := bob_height s;
     frame_duration := frame_duration s;
     use_multiprocessing := use_multiprocessing';
     use_numpy_acceleration := use_numpy_acceleration';
     optimize_gif := optimize_gif';
     max_workers :=
       match max_workers' with
       | Some m => Z.min m cpu_count
       | None => max_workers s
       end;
     _cached_canvas_size := _cached_canvas_size s |}.

(** [create_frame(img, frame_index)] reads [self] and mutates nothing.
    Here the offset is the one of exact arithmetic. *)
Definition create_frame (s : Animator) (img : Image) (frame_index : Z)
    : result Image :=
  result_bind (bob_offset frame_index (frame_count s) (bob_height s)) (fun off =>
  let canvas_width := width img + 20 in
  let canvas_height := height img + bob_height s * 2 + 20 in
  result_bind (Image_new ModeRGBA (canvas_width, canvas_height) transparent) (fun canvas =>
  let img_x := (canvas_width - width img) `div` 2 in
  let img_y := 10 + bob_height s - off in
  paste canvas img (img_x, img_y) (Some img))).

(** [Image.new] with the size handed to C as two [int]s, which is how
    Pillow receives it.  A canvas that the host cannot allocate raises
    [MemoryError] in Pillow; that is not modelled, and nothing below
    says that a canvas of every size is obtained. *)
Definition Image_new_checked (m : Mode) (size : Z * Z) (color : Pixel)
    : result Image :=
  let '(w, h) := size in
  if (0 <=? w) && (0 <=? h) && ((2 ^ 31 <=? w) || (2 ^ 31 <=? h))
  then Raise (OverflowError "signed integer is greater than maximum")
  else Image_new m size color.

(** [create_frame(img, frame_index)] in double precision. *)
Definition create_frame64 {lm : Libm} (s : Animator) (img : Image) (frame_index : Z)
    : result Image :=
  result_bind (bob_offset64 frame_index (frame_count s) (bob_height s)) (fun off =>
  let canvas_width := width img + 20 in
  let canvas_height := height img + bob_height s * 2 + 20 in
  result_bind (Image_new_checked ModeRGBA (canvas_width, canvas_height) transparent)
    (fun canvas =>
  let img_x := (canvas_width - width img) `div` 2 in
  let img_y := 10 + bob_height s - off in
  paste canvas img (img_x, img_y) (Some img))).

(** ** State and exceptions *)

Record World : Type := mkWorld {
  self : Animator;
  disk : Disk
}.

Definition M (A : Type) : Type := World -> result A * World.

Definition ret {A} (a : A) : M A := fun w => (Ok a, w).

Definition bind {A B} (m : M A) (k : A -> M B) : M B :=
  fun w =>
    match m w with
    | (Ok a, w') => k a w'
    | (Raise e, w') => (Raise e, w')
    end.

Definition raise {A} (e : exn) : M A := fun w => (Raise e, w).

Definition lift {A} (r : result A) : M A := fun w => (r, w).

Notation "'let*' x ':=' m 'in' k" := (bind m (fun x => k))
  (at level 10, x name, m at level 100, k at level 200).

(** [try: body except Exception as e: handler(e)]; what [body] changed
    before raising stays changed. *)
Definition try_except {A} (body : M A) (handler : exn -> M A) : M A :=
  fun w =>
    match body w with
    | (Ok a, w') => (Ok a, w')
    | (Raise e, w') => handler e w'
    end.

Fixpoint for_each {A} (l : list A) (body : A -> M unit) : M unit :=
  match l with
  | [] => ret tt
  | a :: l' => let* _ := body a in for_each l' body
  end.

Fixpoint result_mapM {A B} (f : A -> result B) (l : list A) : result (list B) :=
  match l with
  | [] => Ok []
  | a :: l' =>
      result_bind (f a) (fun b =>
      result_bind (result_mapM f l') (fun bs => Ok (b :: bs)))
  end.

Definition get_self : M Animator := fun w => (Ok (self w), w).

Definition get_disk : M Disk := fun w => (Ok (disk w), w).

(** [self.frames = fs] *)
Definition put_frames (fs : list Image) : M unit :=
  fun w => (Ok tt, mkWorld (with_frames (self w) fs) (disk w)).

(** [self.frames.append(frame)] *)
Definition frames_append (frame : Image) : M unit :=
  fun w => (Ok tt, mkWorld (with_frames (self w) (frames (self w) ++ [frame])) (disk w)).

Definition save_to (path : string) (g : Gif) : M unit :=
  fun w =>
    match Image_save path g (disk w) with
    | Ok d => (Ok tt, mkWorld (self w) d)
    | Raise e => (Raise e, w)
    end.

(** ** The setters *)

Definition modify_self (f : Animator -> Animator) : M unit :=
  fun w => (Ok tt, mkWorld (f (self w)) (disk w)).

Definition set_animation_params (frame_count bob_height frame_duration : option Z)
    : M unit :=
  modify_self (fun s => update_animation_params s frame_count bob_height frame_duration).

Definition set_performance_options (cpu_count : Z)
    (use_multiprocessing use_numpy_acceleration optimize_gif : bool)
    (max_workers : option Z) : M unit :=
  modify_self (fun s =>
    update_performance_options cpu_count s
      use_multiprocessing use_numpy_acceleration optimize_gif max_workers).

(** A call of one of the two setters, and a session of such calls on an
    animator. *)
Inductive SetterCall : Type :=
| SetAnimationParams (frame_count bob_height frame_duration : option Z)
| SetPerformanceOptions (use_multiprocessing use_numpy_acceleration optimize_gif : bool)
    (max_workers : option Z).

Definition call_setter (cpu_count : Z) (c : SetterCall) : M unit :=
  match c with
  | SetAnimationParams n h d => set_animation_params n h d
  | SetPerformanceOptions mp np og mw => set_performance_options cpu_count mp np og mw
  end.

(** ** Loading *)

Definition load_png {pil : Pillow} : M Image :=
  try_except
    (let* s := get_self in
     let* d := get_disk in
     let* img := lift (Image_open d (png_path s)) in
     if decide (mode img = ModeRGBA) then ret img else ret (convert_RGBA img))
    (fun e => raise (ValueError ("Error loading PNG file: " +:+ exn_str e))).

(** ** Frame generation *)

(** [range(n)] *)
Definition range (n : Z) : list Z := seqZ 0 n.

Definition _create_frames_sequential (img : Image) : M unit :=
  let* s := get_self in
  for_each (range (frame_count s)) (fun i =>
    let* s := get_self in
    let* frame := lift (create_frame s img i) in
    frames_append frame).

(** The pool is created, one task per index is submitted, and the
    futures are then visited in submission order.  [future.result()]
    blocks until that task has run and returns or re-raises its outcome;
    a task is a call of [create_frame], which reads only attributes that
    nothing changes meanwhile, so the outcome a future delivers is fixed
    at submission.  The interleavings of the workers are the subject of
    [step] below. *)
Definition _create_frames_parallel (img : Image) : M unit :=
  let* s := get_self in
  if max_workers s <=? 0
  then raise (ValueError "max_workers must be greater than 0")
  else
    let futures := map (fun i => (i, create_frame s img i)) (range (frame_count s)) in
    let* _ := put_frames [] in
    for_each futures (fun '(i, future) =>
      try_except
        (let* frame := lift future in frames_append frame)
        (fun e =>
           let* s := get_self in
           let* frame := lift (create_frame s img i) in
           frames_append frame)).

(** *** The worker pool, step by step *)

Inductive Future : Type :=
| Pending
| Running
| Done (outcome : result Image).




Definition count_where (p : Future -> bool) (l : list Future) : nat :=
  length (filter (fun f => p f = true) l).


Section Executor.
(** What task [i] computes, and the pool size. *)
Variable task : nat -> result Image.
Variable workers : Z.



End Executor.

(** ** Saving *)

Definition _save_standard_gif : M unit :=
  let* s := get_self in
  match frames s with
  | [] => raise IndexError
  | first :: rest =>
      save_to (output_path s)
        (mkGif (RGBAFrames (first :: rest)) (frame_duration s) 0 2 true (Some 0))
  end.

(** [for i, frame in enumerate(self.frames[:4]): combined.paste(frame, (i * frame.width, 0))] *)
Fixpoint paste_samples (combined : Image) (i : Z) (sample : list Image)
    : result Image :=
  match sample with
  | [] => Ok combined
  | frame :: rest =>
      let x_offset := i * width frame in
      result_bind (paste combined frame (x_offset, 0) None) (fun combined' =>
      paste_samples combined' (i + 1) rest)
  end.

(** Palette construction, the first half of the [try] block of
    [_save_optimized_gif]: up to four frames side by side on one canvas,
    converted to an adaptive palette of 256 colours. *)
Definition build_palette {pil : Pillow} (frames : list Image) : result PImage :=
  result_bind (match frames with [] => Raise IndexError | f :: _ => Ok f end) (fun first =>
  let combined_width := width first * Z.min 4 (Z.of_nat (length frames)) in
  let combined_height := height first in
  result_bind (Image_new ModeRGBA (combined_width, combined_height) transparent) (fun combined =>
  result_bind (paste_samples combined 0 (take 4 frames)) (fun combined =>
  convert_adaptive combined 256))).

(** Quantization, the second half: every frame against that palette. *)
Definition quantize_frames {pil : Pillow} (frames : list Image) (combined_p : PImage)
    : result (list PImage) :=
  result_mapM (fun frame => quantize frame combined_p) frames.

(** The body of the [try] block of [_save_optimized_gif]. *)
Definition optimized_body {pil : Pillow} : M unit :=
  let* s := get_self in
  let* combined_p := lift (build_palette (frames s)) in
  let* optimized_frames := lift (quantize_frames (frames s) combined_p) in
  match optimized_frames with
  | [] => raise IndexError
  | first_p :: rest_p =>
      save_to (output_path s)
        (mkGif (PaletteFrames (first_p :: rest_p)) (frame_duration s) 0 2 true None)
  end.

Definition _save_optimized_gif {pil : Pillow} : M unit :=
  try_except optimized_body (fun e => _save_standard_gif).

Definition save_gif {pil : Pillow} : M unit :=
  let* s := get_self in
  match frames s with
  | [] => raise (ValueError "No frames to save")
  | _ :: _ => if optimize_gif s then _save_optimized_gif else _save_standard_gif
  end.

(** ** The pipeline *)

Inductive Path : Type := Sequential | Parallel.

(** The test of [create_animation] that picks the scheduler. *)
Definition scheduler (s : Animator) : Path :=
  if use_multiprocessing s && (frame_count s >? 4) then Parallel else Sequential.

Definition create_animation {pil : Pillow} : M unit :=
  let* img := load_png in
  let* s := get_self in
  let* _ :=
    match scheduler s with
    | Parallel => _create_frames_parallel img
    | Sequential => _create_frames_sequential img
    end in
  save_gif.

(** ** The command line ([main]) *)

(** The namespace [parser.parse_args()] returns. *)
Record Args : Type := mkArgs {
  arg_input : option string;
  arg_output : option string;
  arg_frames : Z;
  arg_bob_height : Z;
  arg_duration : Z;
  arg_gui : bool;
  arg_no_multiprocessing : bool;
  arg_no_numpy : bool;
  arg_no_optimize : bool;
  arg_max_workers : option Z
}.

(** How [main] ends: in the window's event loop, by returning, or by
    [sys.exit(code)]. *)
Inductive Exit : Type :=
| LaunchedGUI
| Returned
| SysExit (code : Z).

(** [os.path.exists(path)] *)
Definition path_exists (d : Disk) (path : string) : bool :=
  bool_decide (is_Some (files d !! path)).

(** The [try] block of [main], on the animator it has just made. *)
Definition main_body {pil : Pillow} (cpu_count : Z) (args : Args) : M unit :=
  let* _ := set_animation_params
              (Some (arg_frames args)) (Some (arg_bob_height args))
              (Some (arg_duration args)) in
  let* _ := set_performance_options cpu_count
              (negb (arg_no_multiprocessing args)) (negb (arg_no_numpy args))
              (negb (arg_no_optimize args)) (arg_max_workers args) in
  create_animation.

Definition main {pil : Pillow} (cpu_count : Z) (args : Args) (d : Disk)
    : Exit * Disk :=
  match arg_input args with
  | Some (String c rest) =>
      let input := String c rest in
      if arg_gui args then (LaunchedGUI, d)
      else if negb (path_exists d input) then (SysExit 1, d)
      else
        match main_body cpu_count args
                (mkWorld (__init__ cpu_count input (arg_output args)) d) with
        | (Ok _, w) => (Returned, disk w)
        | (Raise e, w) => (SysExit 1, disk w)
        end
  | _ => (LaunchedGUI, d)
  end.

(** ** The window ([PNGBobAnimatorGUI]) *)

(** The values of the Tk variables the methods read.  Widget updates,
    [root.after] callbacks that only redraw, and the worker thread the
    buttons start are dropped: a button press is the run of its thread
    to the end. *)
Record GuiVars : Type := mkGuiVars {
  input_file : string;
  output_file : string;
  var_frame_count : Z;
  var_bob_height : Z;
  var_frame_duration : Z;
  var_use_multiprocessing : bool;
  var_use_numpy_acceleration : bool;
  var_optimize_gif : bool;
  var_max_workers : Z
}.

(** What a button press ends with: a message box, or the failure of the
    callback that was to show one. *)
Inductive Dialog : Type :=
| ShowInfo (title message : string)
| ShowError (title message : string)
| CallbackNameError (name : string).

Definition reset_defaults (cpu_count : Z) (v : GuiVars) : GuiVars :=
  {| input_file := input_file v;
     output_file := output_file v;
     var_frame_count := 30;
     var_bob_height := 10;
     var_frame_duration := 80;
     var_use_multiprocessing := true;
     var_use_numpy_acceleration := true;
     var_optimize_gif := true;
     var_max_workers := Z.min cpu_count 8 |}.

(** [progress = (i + 1) / animator.frame_count * 90] *)
Definition frame_progress (i frame_count : Z) : result R :=
  if frame_count =? 0 then Raise ZeroDivisionError
  else Ok (IZR (i + 1) / IZR frame_count * 90)%R.

(** [create_animation_with_progress(animator)]; the animator is the
    [self] of the world. *)
Definition create_animation_with_progress {pil : Pillow} : M unit :=
  let* img := load_png in
  let* s := get_self in
  let* _ :=
    for_each (range (frame_count s)) (fun i =>
      let* s := get_self in
      let* frame := lift (create_frame s img i) in
      let* _ := frames_append frame in
      let* s := get_self in
      let* progress := lift (frame_progress i (frame_count s)) in
      ret tt) in
  save_gif.

(** The [try] block of [create_animation_thread], on the animator it has
    just made. *)
Definition gui_body {pil : Pillow} (cpu_count : Z) (v : GuiVars) : M unit :=
  let* _ := set_animation_params
              (Some (var_frame_count v)) (Some (var_bob_height v))
              (Some (var_frame_duration v)) in
  let* _ := set_performance_options cpu_count
              (var_use_multiprocessing v) (var_use_numpy_acceleration v)
              (var_optimize_gif v) (Some (var_max_workers v)) in
  create_animation_with_progress.

(** The [except] clause schedules [lambda: messagebox.showerror("Error",
    str(e))] with [root.after].  The callback runs when the thread has
    left the clause, which has unbound [e]: it raises [NameError] inside
    the event loop and no box appears. *)
Definition create_animation_thread {pil : Pillow} (cpu_count : Z) (v : GuiVars)
    (d : Disk) : Dialog * Disk :=
  match gui_body cpu_count v
          (mkWorld (__init__ cpu_count (input_file v) (Some (output_file v))) d) with
  | (Ok _, w) =>
      (ShowInfo "Success" ("Animation saved as: " +:+ output_file v), disk w)
  | (Raise e, w) => (CallbackNameError "e", disk w)
  end.

(** [PNGBobAnimatorGUI.create_animation], the handler of the button. *)
Definition gui_create_animation {pil : Pillow} (cpu_count : Z) (v : GuiVars)
    (d : Disk) : Dialog * Disk :=
  match input_file v with
  | EmptyString => (ShowError "Error" "Please select an input PNG file.", d)
  | String _ _ =>
      match output_file v with
      | EmptyString => (ShowError "Error" "Please specify an output GIF file.", d)
      | String _ _ => create_animation_thread cpu_count v d
      end
  end.

(** *** The preview *)

(** [frame.resize(size, Image.Resampling.LANCZOS)], not computed here. *)
Class Resampler : Type := {
  resize : Image -> Z * Z -> result Image
}.

(** The size asked of [resize] for a frame of the given size:
    [scale_factor = 250 / frame.width], [int(frame.width * scale_factor)]
    and [int(frame.height * scale_factor)]. *)
Definition preview_size (frame_width frame_height : Z) : result (Z * Z) :=
  result_bind (int_true_divide 250 frame_width) (fun scale_factor =>
  result_bind (int_mul_float frame_width scale_factor) (fun scaled_width =>
  result_bind (int_of_float scaled_width) (fun new_width =>
  result_bind (int_mul_float frame_height scale_factor) (fun scaled_height =>
  result_bind (int_of_float scaled_height) (fun new_height =>
  Ok (new_width, new_height)))))).

(** One turn of the loop of [create_preview_thread]: the frame, scaled
    to a width of about 250 pixels. *)
Definition preview_frame {lm : Libm} {rs : Resampler} (s : Animator) (img : Image)
    (i : Z) : result Image :=
  result_bind (create_frame64 s img i) (fun frame =>
  result_bind (preview_size (width frame) (height frame)) (fun size =>
  resize frame size)).

(** The [try] block of [create_preview_thread] up to the list of
    resized frames; a [PhotoImage] is taken for the image it wraps. *)
Definition preview_body {pil : Pillow} {lm : Libm} {rs : Resampler} (v : GuiVars)
    : M (list Image) :=
  let preview_frames := Z.min 15 (var_frame_count v) in
  let* _ := set_animation_params
              (Some preview_frames) (Some (var_bob_height v))
              (Some (Z.max 100 (var_frame_duration v))) in
  let* img := load_png in
  let* s := get_self in
  lift (result_mapM (preview_frame s img) (range preview_frames)).

(** What [create_preview_thread] hands to the window: the frames to
    play, if the [try] block ends.  When it raises, the callback that
    was to write the error on the label reads [e] after the [except]
    clause has unbound it, and the label stays as it is. *)
Definition create_preview_thread {pil : Pillow} {lm : Libm} {rs : Resampler}
    (cpu_count : Z) (v : GuiVars) (d : Disk) : option (list Image) :=
  match preview_body v
          (mkWorld (__init__ cpu_count (input_file v) (Some EmptyString)) d) with
  | (Ok preview_frames, _) => Some preview_frames
  | (Raise e, _) => None
  end.

(** The preview player: the frames, whether it plays, and the index of
    the frame to show next. *)
Record Player : Type := mkPlayer {
  preview_frames : list Image;
  preview_playing : bool;
  current_preview_frame : Z
}.

(** [l[i]] on a Python list: a negative index counts from the end. *)
Definition py_getitem {A} (l : list A) (i : Z) : result A :=
  let j := if i <? 0 then i + Z.of_nat (length l) else i in
  if j <? 0 then Raise IndexError
  else match l !! Z.to_nat j with
       | Some a => Ok a
       | None => Raise IndexError
       end.

(** [animate_preview]: the frame put on the label and the delay after
    which Tk calls it again, if it does anything. *)
Definition animate_preview (frame_duration : Z) (p : Player)
    : result (option (Image * Z) * Player) :=
  if negb (preview_playing p) then Ok (None, p)
  else
    match preview_frames p with
    | [] => Ok (None, p)
    | _ :: _ =>
        result_bind (py_getitem (preview_frames p) (current_preview_frame p)) (fun frame =>
        let current := (current_preview_frame p + 1) `mod` Z.of_nat (length (preview_frames p)) in
        let delay := Z.max 100 frame_duration in
        Ok (Some (frame, delay), mkPlayer (preview_frames p) (preview_playing p) current))
    end.

Definition start_preview_animation (frame_duration : Z) (p : Player)
    : result (option (Image * Z) * Player) :=
  match preview_frames p with
  | [] => Ok (None, p)
  | _ :: _ => animate_preview frame_duration (mkPlayer (preview_frames p) true 0)
  end.

Definition stop_preview (p : Player) : Player :=
  mkPlayer [] false (current_preview_frame p).

(** ** Reading aids for the properties *)

(** The real number a finite float holds. *)
Definition float_value (x : float) : R :=
  match x with
  | Finite m e => if 0 <=? e then IZR (m * 2 ^ e) else (IZR m / IZR (2 ^ (- e)))%R
  | _ => 0%R
  end.

(** [x] is finite and [|x| <= H]. *)
Definition at_most (H : Z) (x : float) : Prop :=
  match x with
  | Finite m e => Z.abs m * 2 ^ Z.max 0 e <= H * 2 ^ Z.max 0 (- e)
  | _ => False
  end.

(** The sine of a finite number is a number of [[-1, 1]]: what the sine
    of every C library gives, and all that is asked of it below. *)
Definition sin_in_unit_interval {lm : Libm} : Prop :=
  forall m e, at_most 1 (libm_sin (Finite m e)).

(** What a loop that appends [g i] for each [i] of [l] leaves behind: the
    frames appended before the first failure, and that failure. *)
Fixpoint collect {I} (g : I -> result Image) (l : list I) : list Image * option exn :=
  match l with
  | [] => ([], None)
  | i :: l' =>
      match g i with
      | Ok frame => let '(fs, e) := collect g l' in (frame :: fs, e)
      | Raise e => ([], Some e)
      end
  end.

Definition outcome_of (e : option exn) : result unit :=
  match e with
  | None => Ok tt
  | Some e => Raise e
  end.



(** From [w] to [w'] the animator is the same and no file other than
    [path] has changed. *)
Definition touches_only (path : string) (w w' : World) : Prop :=
  self w' = self w /\
  forall p, p <> path -> files (disk w') !! p = files (disk w) !! p.

(** The optimization step fails: palette construction raises, or the
    palette is built and the quantization of some frame raises. *)
Definition optimization_fails {pil : Pillow} (frames : list Image) : Prop :=
  (exists e, build_palette frames = Raise e) \/
  (exists combined_p e,
      build_palette frames = Ok combined_p /\
      quantize_frames frames combined_p = Raise e).

(** The two failure modes of the loader told apart by exception class,
    as the specification words it. *)
Definition loader_distinguishes {pil : Pillow}
    (SourceNotFound UnsupportedFormat : exn_class) : Prop :=
  SourceNotFound <> UnsupportedFormat /\
  forall w : World,
    (files (disk w) !! png_path (self w) = None ->
     exists e, fst (load_png w) = Raise e /\ class_of e = SourceNotFound) /\
    (forall f, files (disk w) !! png_path (self w) = Some f -> decode f = None ->
     exists e, fst (load_png w) = Raise e /\ class_of e = UnsupportedFormat).

(** ** Sample data *)

(** The sine of glibc on x86-64 at the angles of the frames of an
    animation of 4, 6, 8, 12 or 30 frames, from frame 1 to the seam:
    an entry [(m, e, (m', e'))] says [sin(m * 2^e) = m' * 2^e']. *)
Definition sine_table : list (Z * Z * (Z * Z)) :=
  [
    (7545853602163669, -55, (7490808106342645, -55));
    (7545853602163669, -54, (7327115976776400, -54));
    (4716158501352293, -53, (9007199254740991, -54));
    (5659390201622752, -53, (5294298886396510, -53));
    (7074237752028440, -53, (6369051672525772, -53));
    (7545853602163669, -53, (6693653518204609, -53));
    (4716158501352293, -52, (7800463371553962, -53));
    (5659390201622752, -52, (8566355544790271, -53));
    (6602621901893211, -52, (8957856874784710, -53));
    (7074237752028440, -52, (4503599627370496, -52));
    (7545853602163669, -52, (8957856874784711, -53));
    (8489085302434128, -52, (8566355544790272, -53));
    (4716158501352293, -51, (7800463371553963, -53));
    (5187774351487522, -51, (6693653518204612, -53));
    (5305678314021330, -51, (6369051672525773, -53));
    (5659390201622752, -51, (5294298886396511, -53));
    (5895198126690367, -51, (9007199254740991, -54));
    (6131006051757982, -51, (7327115976776398, -54));
    (6602621901893211, -51, (7490808106342645, -55));
    (7074237752028440, -51, (4967757600021511, -105));
    (7545853602163669, -51, (-7490808106342636, -55));
    (8017469452298898, -51, (-7327115976776394, -54));
    (8253277377366514, -51, (-4503599627370497, -53));
    (8489085302434128, -51, (-5294298886396509, -53));
    (8842797190035550, -51, (-6369051672525772, -53));
    (8960701152569357, -51, (-6693653518204608, -53));
    (4716158501352293, -50, (-7800463371553960, -53));
    (4951966426419908, -50, (-8566355544790271, -53));
    (5187774351487522, -50, (-8957856874784710, -53));
    (5305678314021330, -50, (-4503599627370496, -52));
    (5423582276555138, -50, (-8957856874784710, -53));
    (5659390201622752, -50, (-8566355544790272, -53));
    (5895198126690367, -50, (-7800463371553962, -53));
    (6131006051757982, -50, (-6693653518204608, -53));
    (6189958033024885, -50, (-6369051672525774, -53));
    (6366813976825596, -50, (-5294298886396512, -53));
    (6484717939359403, -50, (-4503599627370500, -53));
    (6602621901893211, -50, (-7327115976776400, -54));
    (6838429826960825, -50, (-7490808106342665, -55));
    (7074237752028440, -50, (-4967757600021511, -104)) ].

Fixpoint table_lookup (table : list (Z * Z * (Z * Z))) (m e : Z) : float :=
  match table with
  | [] => Finite 0 0
  | (m0, e0, (m', e')) :: rest =>
      if (m =? m0) && (e =? e0) then Finite m' e' else table_lookup rest m e
  end.

(** A sine that is the one of glibc on the table, [sin(0.0) = 0.0]
    included, and 0 elsewhere. *)
Definition sample_libm : Libm :=
  {| libm_sin := fun x =>
       match x with
       | Finite m e => table_lookup sine_table m e
       | _ => NaN
       end |}.

(** The same number in the standard library's specification of IEEE 754
    arithmetic, up to the sign of a zero. *)
Definition same_as_spec (x : float) (y : SpecFloat.spec_float) : bool :=
  match x, y with
  | Finite 0 _, SpecFloat.S754_zero _ => true
  | Finite (Zpos p) e, SpecFloat.S754_finite false q e' => Pos.eqb p q && (e =? e')
  | Finite (Zneg p) e, SpecFloat.S754_finite true q e' => Pos.eqb p q && (e =? e')
  | Infinity s, SpecFloat.S754_infinity s' => Bool.eqb s s'
  | NaN, SpecFloat.S754_nan => true
  | _, _ => false
  end.

Definition to_spec (x : float) : SpecFloat.spec_float :=
  match x with
  | Finite 0 _ => SpecFloat.S754_zero false
  | Finite (Zpos p) e => SpecFloat.S754_finite false p e
  | Finite (Zneg p) e => SpecFloat.S754_finite true p e
  | Infinity s => SpecFloat.S754_infinity s
  | NaN => SpecFloat.S754_nan
  end.

(** Normal, subnormal, smallest and largest numbers. *)
Definition float_samples : list float :=
  [ Finite 7074237752028440 (-51); Finite 6369051672525772 (-53);
    Finite 4503599627370496 (-52); Finite 9007199254740991 (-54);
    Finite (-7800463371553960) (-53); Finite 4967757600021511 (-105);
    Finite 5 (-1074); Finite 4503599627370497 (-1074);
    Finite 9007199254740991 971; Finite 6004799503160661 (-54); Finite 0 0;
    Finite 7205759403792794 (-56); Finite (-4503599627370496) 400;
    Finite 4503599627370496 (-600); Finite 6755399441055744 (-1000) ].

Definition int_samples : list Z :=
  [ 0; 1; 2; 5; 250; -38; 9007199254740993; 9007199254740995; 10 ^ 17; 10 ^ 400;
    - 2 ^ 1024; 2 ^ 1024 - 2 ^ 970 - 1; 2 ^ 1024 - 2 ^ 970 ].

Definition quotient_samples : list (Z * Z) :=
  [ (1, 8); (1, 12); (7, 30); (250, 38); (-5, 6); (1, 3); (2, 3); (29, 30); (0, 7);
    (1, 10 ^ 15); (9007199254740991, 3) ].

(** A disk on which nothing can be written. *)
Definition read_only_disk (d : Disk) : Disk := mkDisk (files d) (fun _ => false).

Definition red_dot : Image := mkImage ModeRGBA 1 1 [[[255; 0; 0; 255]]].

Definition grey_dot : Image := mkImage ModeL 1 1 [[[128]]].

(** A decoder that knows one file content, and a quantizer that always
    fails. *)
Definition stub_pillow : Pillow :=
  {| decode := fun f =>
       match f with
       | FileBytes [137; 80; 78; 71] => Some red_dot
       | FileBytes [71] => Some grey_dot
       | _ => None
       end;
     convert_adaptive := fun im n => Ok (mkPImage (width im) (height im) [] []);
     quantize := fun im p => Raise (ValueError "cannot quantize") |}.

Definition sample_disk : Disk :=
  mkDisk (<["dot.png" := FileBytes [137; 80; 78; 71]]>
          (<["grey.png" := FileBytes [71]]>
          (<["corrupt.png" := FileBytes [0; 0]]> ∅)))
         (fun _ => true).

Definition sample_world (cpu_count : Z) (png_path : string) : World :=
  mkWorld (__init__ cpu_count png_path None) sample_disk.

(** An animator that already holds one frame. *)
Definition one_frame_world : World :=
  mkWorld (with_frames (__init__ 4 "dot.png" None) [red_dot]) sample_disk.

(** A decoder that knows the same file contents, with a quantizer that
    maps every pixel to index 0, and a resampler that returns a blank
    image of the requested size. *)
Definition plain_pillow : Pillow :=
  {| decode := decode (Pillow := stub_pillow);
     convert_adaptive := fun im n => Ok (mkPImage (width im) (height im) [0; 0; 0] []);
     quantize := fun im p =>
       Ok (mkPImage (width im) (height im) (p_palette p)
             (map (map (fun _ => 0)) (data im))) |}.

Definition blank_resampler : Resampler :=
  {| resize := fun im size => Image_new (mode im) size transparent |}.

Definition sample_args : Args :=
  mkArgs (Some "dot.png") None 6 3 80 false false false false None.

Definition sample_vars : GuiVars :=
  mkGuiVars "dot.png" "dot_bobbing.gif" 6 3 80 true true true 4.

(** Four bytes. *)
Definition is_rgba_pixel (px : Pixel) : Prop :=
  length px = 4%nat /\ Forall (fun c => 0 <= c <= 255) px.

(** Every position inside the declared size of the image holds a
    pixel. *)
Definition is_full (im : Image) : Prop :=
  forall x y, 0 <= x < width im -> 0 <= y < height im -> is_Some (getpixel im x y).

(** The scheduler [create_animation] picks, run. *)
Definition generate (img : Image) (w : World) : result unit * World :=
  match scheduler (self w) with
  | Parallel => _create_frames_parallel img w
  | Sequential => _create_frames_sequential img w
  end.

(** Two animators that differ at most in [use_multiprocessing],
    [use_numpy_acceleration] and [max_workers]. *)
Definition same_animation (s s' : Animator) : Prop :=
  png_path s = png_path s' /\ output_path s = output_path s' /\
  frames s = frames s' /\ frame_count s = frame_count s' /\
  bob_height s = bob_height s' /\ frame_duration s = frame_duration s' /\
  optimize_gif s = optimize_gif s'.

(** Load, the sequential scheduler, save. *)
Definition sequential_pipeline {pil : Pillow} (w : World) : result unit * World :=
  match fst (load_png w) with
  | Raise e => (Raise e, w)
  | Ok img =>
      match _create_frames_sequential img w with
      | (Ok _, w1) => save_gif w1
      | (Raise e, w1) => (Raise e, w1)
      end
  end.

(** A frame of the animation of [img] with bob height [b]: a well-formed
    RGBA canvas of the one size all frames have. *)
Definition is_canvas_of (img : Image) (b : Z) (frame : Image) : Prop :=
  well_formed frame /\ mode frame = ModeRGBA /\
  width frame = width img + 20 /\ height frame = height img + b * 2 + 20.

(** * Properties *)

(** ** Truncation and the sine in exact arithmetic *)

Lemma Int_part_bounds (x : R) : (IZR (Int_part x) <= x < IZR (Int_part x) + 1)%R.
Proof. destruct (base_Int_part x). lra. Qed.

Lemma py_int_nonneg (x : R) : (0 <= x)%R -> py_int x = Int_part x.
Proof. intros Hx. unfold py_int. destruct (Rle_dec 0 x); [reflexivity | contradiction]. Qed.

Lemma py_int_neg (x : R) : (x < 0)%R -> py_int x = - Int_part (- x).
Proof. intros Hx. unfold py_int. destruct (Rle_dec 0 x); [lra | reflexivity]. Qed.

Lemma Int_part_nonneg (x : R) : (0 <= x)%R -> 0 <= Int_part x.
Proof.
  intros Hx. destruct (Int_part_bounds x) as [_ Hup].
  assert (H : (IZR (-1) < IZR (Int_part x))%R) by (simpl; lra).
  apply lt_IZR in H. lia.
Qed.


Lemma py_int_truncates (x : R) : is_truncation x (py_int x).
Proof.
  unfold is_truncation. destruct (Rle_dec 0 x) as [Hx | Hx].
  - rewrite py_int_nonneg by assumption.
    pose proof (Int_part_bounds x) as [Hlo Hhi].
    pose proof (Int_part_nonneg x Hx) as Hz. apply IZR_le in Hz.
    rewrite !Rabs_pos_eq by lra. split; [lra | nra].
  - apply Rnot_le_lt in Hx. rewrite py_int_neg by assumption.
    pose proof (Int_part_bounds (- x)) as [Hlo Hhi].
    assert (Hz : 0 <= Int_part (- x)) by (apply Int_part_nonneg; lra).
    apply IZR_le in Hz. rewrite opp_IZR.
    rewrite (Rabs_left x) by assumption.
    rewrite Rabs_Ropp, Rabs_pos_eq by lra. split; [lra | nra].
Qed.

Lemma py_int_bounded (x : R) (h : Z) :
  (Rabs x <= IZR h)%R -> Z.abs (py_int x) <= h.
Proof.
  intros Hx. destruct (py_int_truncates x) as [[Hlo _] _].
  rewrite <- abs_IZR in Hlo. apply le_IZR. lra.
Qed.

Lemma sin_scaled_bounded (a : R) (h : Z) :
  0 <= h -> (Rabs (sin a * IZR h) <= IZR h)%R.
Proof.
  intros Hh. apply IZR_le in Hh. rewrite Rabs_mult, (Rabs_pos_eq (IZR h)) by lra.
  pose proof (SIN_bound a) as [Hlo Hhi].
  assert (Rabs (sin a) <= 1)%R by (apply Rabs_le; lra). nra.
Qed.

Lemma bob_angle_ok (i n : Z) :
  n <> 0 -> bob_angle i n = Ok (IZR i / IZR n * 2 * PI)%R.
Proof.
  intros Hn. unfold bob_angle. destruct (Z.eqb_spec n 0); [contradiction | reflexivity].
Qed.

Lemma bob_offset_ok (i n h : Z) :
  n <> 0 -> bob_offset i n h = Ok (py_int (sin (IZR i / IZR n * 2 * PI) * IZR h)).
Proof. intros Hn. unfold bob_offset. rewrite bob_angle_ok by assumption. reflexivity. Qed.

Lemma bob_offset_bounded (i n h : Z) :
  n <> 0 -> 0 <= h -> exists off, bob_offset i n h = Ok off /\ Z.abs off <= h.
Proof.
  intros Hn Hh. rewrite bob_offset_ok by assumption. eexists. split; [reflexivity |].
  apply py_int_bounded, sin_scaled_bounded, Hh.
Qed.

Lemma sqrt2_bounds : (14 / 10 < sqrt 2 < 15 / 10)%R.
Proof.
  pose proof (sqrt_sqrt 2 ltac:(lra)) as Hsq.
  pose proof (sqrt_pos 2) as Hpos.
  split; nra.
Qed.

Lemma sin_eighth_turn_times_5 :
  (sin (IZR 1 / IZR 8 * 2 * PI) * IZR 5 = 5 / 2 * sqrt 2)%R.
Proof.
  replace (IZR 1 / IZR 8 * 2 * PI)%R with (PI / 4)%R by (simpl; lra).
  rewrite sin_PI4.
  pose proof (sqrt_sqrt 2 ltac:(lra)) as Hsq.
  pose proof sqrt2_bounds as [Hlo Hhi].
  simpl. apply (Rmult_eq_reg_r (sqrt 2)); [| lra].
  unfold Rdiv at 1. rewrite Rmult_1_l.
  replace (/ sqrt 2 * 5 * sqrt 2)%R with (5 * (sqrt 2 * / sqrt 2))%R by ring.
  rewrite Rinv_r by lra. nra.
Qed.

(** ** Double-precision arithmetic *)

Lemma digits_spec (m : Z) : m <> 0 -> 2 ^ (digits m - 1) <= Z.abs m < 2 ^ digits m.
Proof.
  intros Hm. unfold digits. destruct (Z.eqb_spec m 0); [contradiction |].
  pose proof (Z.log2_spec (Z.abs m) ltac:(lia)) as H.
  replace (Z.log2 (Z.abs m) + 1 - 1) with (Z.log2 (Z.abs m)) by lia.
  replace (Z.log2 (Z.abs m) + 1) with (Z.succ (Z.log2 (Z.abs m))) by lia. exact H.
Qed.

Lemma digits_pos (m : Z) : m <> 0 -> 1 <= digits m.
Proof.
  intros Hm. unfold digits. destruct (Z.eqb_spec m 0); [contradiction |].
  pose proof (Z.log2_nonneg (Z.abs m)). lia.
Qed.

Lemma pow2_pos (k : Z) : 0 <= k -> 0 < 2 ^ k.
Proof. intros. apply Z.pow_pos_nonneg; lia. Qed.

Lemma pow2_split (a b : Z) : 0 <= a -> 0 <= b -> 2 ^ (a + b) = 2 ^ a * 2 ^ b.
Proof. intros. apply Z.pow_add_r; assumption. Qed.

(** Rounding a quotient that is at most an integer gives at most that integer. *)
Lemma round_half_even_le (n k K : Z) :
  0 <= n -> 0 < k -> n <= K * 2 ^ k -> 0 <= round_half_even n k <= K.
Proof.
  intros Hn Hk Hle. unfold round_half_even.
  pose proof (pow2_pos k ltac:(lia)) as Hp.
  pose proof (pow2_pos (k - 1) ltac:(lia)) as Hh.
  pose proof (Z.div_mod n (2 ^ k) ltac:(lia)) as Hdm.
  pose proof (Z.mod_pos_bound n (2 ^ k) Hp) as Hr.
  assert (Hq0 : 0 <= n `div` 2 ^ k) by (apply Z.div_pos; lia).
  assert (HqK : n `div` 2 ^ k <= K).
  { apply Z.div_le_upper_bound; lia. }
  assert (Hup : 0 < n `mod` 2 ^ k -> n `div` 2 ^ k + 1 <= K).
  { intros Hr0. destruct (Z_lt_le_dec (n `div` 2 ^ k) K) as [? | Hge]; [lia |].
    assert (n `div` 2 ^ k = K) by lia. nia. }
  destruct (Z.ltb_spec (n `mod` 2 ^ k) (2 ^ (k - 1))); [lia |].
  destruct (Z.ltb_spec (2 ^ (k - 1)) (n `mod` 2 ^ k)); [lia |].
  destruct (Z.even _); lia.
Qed.

Lemma round64_at_most (m e H : Z) :
  0 <= H < 2 ^ 53 ->
  Z.abs m * 2 ^ Z.max 0 e <= H * 2 ^ Z.max 0 (- e) ->
  exists m' e',
    round64 m e = Finite m' e' /\ e' <= 0 /\ Z.abs m' <= H * 2 ^ (- e') /\
    (0 <= m -> 0 <= m') /\ (m <= 0 -> m' <= 0).
Proof.
  intros HH Hle. unfold round64.
  destruct (Z.eqb_spec m 0) as [-> | Hm].
  { exists 0, 0. cbn. repeat split; lia. }
  pose proof (digits_spec m Hm) as [Hdlo Hdhi].
  pose proof (digits_pos m Hm) as Hd1.
  set (d := digits m) in *.
  assert (Hde : d + e <= 53).
  { destruct (Z_le_gt_dec 0 e) as [He | He].
    - rewrite Z.max_r, Z.max_l in Hle by lia. change (2 ^ 0) with 1 in Hle.
      assert (2 ^ (d - 1) * 2 ^ e < 2 ^ 53).
      { pose proof (pow2_pos e He). nia. }
      rewrite <- pow2_split in H0 by lia.
      apply Z.pow_lt_mono_r_iff in H0; lia.
    - rewrite Z.max_l, Z.max_r in Hle by lia. change (2 ^ 0) with 1 in Hle.
      assert (2 ^ (d - 1) < 2 ^ 53 * 2 ^ (- e)).
      { pose proof (pow2_pos (- e) ltac:(lia)). nia. }
      rewrite <- pow2_split in H0 by lia.
      apply Z.pow_lt_mono_r_iff in H0; lia. }
  set (e' := Z.max (d + e - 53) (-1074)).
  assert (He' : e' <= 0) by (unfold e'; lia).
  assert (He'lo : d + e - 53 <= e') by (unfold e'; lia).
  pose proof (pow2_pos (- e') ltac:(lia)) as Hpe'.
  assert (Hsgn : forall a, 0 <= a ->
            Z.abs (Z.sgn m * a) = a /\ (0 <= m -> 0 <= Z.sgn m * a) /\
            (m <= 0 -> Z.sgn m * a <= 0)).
  { intros a Ha. destruct (Z.sgn_spec m) as [[? ->] | [[? ->] | [? ->]]]; lia. }
  (* the rounded mantissa is at most H * 2^(-e') *)
  assert (Ha : exists a,
            (if e' <=? e then Z.abs m * 2 ^ (e - e')
             else round_half_even (Z.abs m) (e' - e)) = a /\
            0 <= a <= H * 2 ^ (- e')).
  { eexists. split; [reflexivity |].
    destruct (Z.leb_spec e' e) as [Hee | Hee].
    - pose proof (pow2_pos (e - e') ltac:(lia)) as Hp. split; [lia |].
      destruct (Z_le_gt_dec 0 e) as [He | He].
      + rewrite Z.max_r, Z.max_l in Hle by lia. change (2 ^ 0) with 1 in Hle.
        replace (e - e') with (e + - e') by lia. rewrite pow2_split by lia.
        pose proof (pow2_pos e He). nia.
      + rewrite Z.max_l, Z.max_r in Hle by lia. change (2 ^ 0) with 1 in Hle.
        replace (- e') with (- e + (e - e')) by lia. rewrite pow2_split by lia.
        nia.
    - apply round_half_even_le; [lia | lia |].
      rewrite Z.max_l, Z.max_r in Hle by lia. change (2 ^ 0) with 1 in Hle.
      rewrite <- Z.mul_assoc, <- pow2_split by lia.
      replace (- e' + (e' - e)) with (- e) by lia. lia. }
  destruct Ha as (a & -> & Ha0 & HaH).
  destruct (Z.eqb_spec a (2 ^ 53)) as [Hc | Hc].
  - assert (He'1 : e' + 1 <= 0).
    { destruct (Z_le_gt_dec (e' + 1) 0); [assumption |].
      assert (e' = 0) as Hz by lia. rewrite Hz in HaH. change (2 ^ (- 0)) with 1 in HaH. lia. }
    change (2 ^ 52 =? 0) with false. cbn iota.
    destruct (Z.ltb_spec 971 (e' + 1)); [lia |].
    exists (Z.sgn m * 2 ^ 52), (e' + 1).
    destruct (Hsgn (2 ^ 52) ltac:(lia)) as (Habs & Hp & Hn).
    split; [reflexivity |]. split; [exact He'1 |]. rewrite Habs.
    split; [| auto].
    replace (- e') with (1 + - (e' + 1)) in HaH by lia.
    rewrite pow2_split in HaH by lia. change (2 ^ 1) with 2 in HaH.
    change (2 ^ 53) with (2 * 2 ^ 52) in Hc. lia.
  - destruct (Z.eqb_spec a 0) as [-> | Ha1].
    { exists 0, 0. cbn. repeat split; lia. }
    destruct (Z.ltb_spec 971 e'); [lia |].
    exists (Z.sgn m * a), e'.
    destruct (Hsgn a Ha0) as (Habs & Hp & Hn).
    split; [reflexivity |]. split; [exact He' |]. rewrite Habs. auto.
Qed.

Lemma at_most_nonneg (H : Z) (x : float) : at_most H x -> 0 <= H.
Proof.
  destruct x as [m e | |]; cbn; try contradiction. intros Hle.
  pose proof (pow2_pos (Z.max 0 e) ltac:(lia)).
  pose proof (pow2_pos (Z.max 0 (- e)) ltac:(lia)). nia.
Qed.

Lemma at_most_mono (H H' : Z) (x : float) : at_most H x -> H <= H' -> at_most H' x.
Proof.
  destruct x as [m e | |]; cbn; try contradiction. intros Hle HH.
  pose proof (pow2_pos (Z.max 0 (- e)) ltac:(lia)). nia.
Qed.

Lemma at_most_intro (H m e : Z) :
  e <= 0 -> Z.abs m <= H * 2 ^ (- e) -> at_most H (Finite m e).
Proof.
  intros He Hle. cbn. rewrite Z.max_l, Z.max_r by lia. change (2 ^ 0) with 1. lia.
Qed.

Lemma round64_bounded (m e H : Z) :
  0 <= H < 2 ^ 53 ->
  Z.abs m * 2 ^ Z.max 0 e <= H * 2 ^ Z.max 0 (- e) ->
  at_most H (round64 m e).
Proof.
  intros HH Hle. destruct (round64_at_most m e H HH Hle) as (m' & e' & -> & He' & Hb & _).
  apply at_most_intro; assumption.
Qed.

Lemma float_mul_at_most (A B : Z) (x y : float) :
  at_most A x -> at_most B y -> A * B < 2 ^ 53 -> at_most (A * B) (float_mul x y).
Proof.
  intros Hx Hy HAB.
  pose proof (at_most_nonneg _ _ Hx) as HA. pose proof (at_most_nonneg _ _ Hy) as HB.
  destruct x as [m1 e1 | |], y as [m2 e2 | |]; cbn in Hx, Hy; try contradiction.
  cbn [float_mul]. apply round64_bounded; [nia |].
  set (p1 := Z.max 0 e1) in *. set (n1 := Z.max 0 (- e1)) in *.
  set (p2 := Z.max 0 e2) in *. set (n2 := Z.max 0 (- e2)) in *.
  assert (Hprod : Z.abs (m1 * m2) * 2 ^ (p1 + p2) <= A * B * 2 ^ (n1 + n2)).
  { rewrite Z.abs_mul, (pow2_split p1 p2), (pow2_split n1 n2)
      by (unfold p1, p2, n1, n2; lia).
    pose proof (pow2_pos p1 ltac:(unfold p1; lia)).
    pose proof (pow2_pos p2 ltac:(unfold p2; lia)).
    pose proof (pow2_pos n1 ltac:(unfold n1; lia)).
    pose proof (pow2_pos n2 ltac:(unfold n2; lia)).
    pose proof (Z.abs_nonneg m1). pose proof (Z.abs_nonneg m2).
    replace (Z.abs m1 * Z.abs m2 * (2 ^ p1 * 2 ^ p2))
      with ((Z.abs m1 * 2 ^ p1) * (Z.abs m2 * 2 ^ p2)) by ring.
    replace (A * B * (2 ^ n1 * 2 ^ n2)) with ((A * 2 ^ n1) * (B * 2 ^ n2)) by ring.
    apply Z.mul_le_mono_nonneg; lia. }
  pose proof (pow2_pos (p1 + p2) ltac:(unfold p1, p2; lia)) as Hpp.
  pose proof (pow2_pos (n1 + n2) ltac:(unfold n1, n2; lia)) as Hnn.
  destruct (Z_le_gt_dec 0 (e1 + e2)) as [He | He].
  - rewrite Z.max_r, Z.max_l by lia. change (2 ^ 0) with 1.
    assert (Hs : 2 ^ (p1 + p2) = 2 ^ (e1 + e2) * 2 ^ (n1 + n2)).
    { rewrite <- pow2_split by (unfold n1, n2; lia). f_equal. unfold p1, p2, n1, n2. lia. }
    rewrite Hs in Hprod.
    apply (Z.mul_le_mono_pos_r _ _ (2 ^ (n1 + n2))); [exact Hnn |].
    rewrite Z.mul_1_r, <- Z.mul_assoc. exact Hprod.
  - rewrite Z.max_l, Z.max_r by lia. change (2 ^ 0) with 1.
    assert (Hs : 2 ^ (n1 + n2) = 2 ^ (- (e1 + e2)) * 2 ^ (p1 + p2)).
    { rewrite <- pow2_split by (unfold p1, p2; lia). f_equal. unfold p1, p2, n1, n2. lia. }
    rewrite Hs in Hprod.
    apply (Z.mul_le_mono_pos_r _ _ (2 ^ (p1 + p2))); [exact Hpp |].
    rewrite Z.mul_1_r, <- Z.mul_assoc. exact Hprod.
Qed.

Lemma float_of_int_at_most (n : Z) :
  Z.abs n < 2 ^ 53 -> exists x, float_of_int n = Ok x /\ at_most (Z.abs n) x.
Proof.
  intros Hn. unfold float_of_int.
  destruct (round64_at_most n 0 (Z.abs n)) as (m' & e' & Hr & He' & Hb & _).
  { lia. }
  { change (2 ^ Z.max 0 0) with 1. change (2 ^ Z.max 0 (- 0)) with 1. lia. }
  rewrite Hr. eexists. split; [reflexivity |]. apply at_most_intro; assumption.
Qed.

Lemma int_of_float_at_most (H : Z) (x : float) :
  at_most H x -> exists z, int_of_float x = Ok z /\ Z.abs z <= H.
Proof.
  destruct x as [m e | |]; cbn [at_most int_of_float]; try contradiction.
  intros Hle. eexists. split; [reflexivity |].
  destruct (Z.leb_spec 0 e) as [He | He].
  - rewrite Z.max_r, Z.max_l in Hle by lia. change (2 ^ 0) with 1 in Hle.
    rewrite Z.abs_mul, (Z.abs_eq (2 ^ e)) by (pose proof (pow2_pos e He); lia). lia.
  - rewrite Z.max_l, Z.max_r in Hle by lia. change (2 ^ 0) with 1 in Hle.
    pose proof (pow2_pos (- e) ltac:(lia)) as Hp.
    assert (Hq : Z.abs (m `quot` 2 ^ (- e)) = Z.abs m `div` 2 ^ (- e)).
    { rewrite <- Z.quot_abs, (Z.abs_eq (2 ^ (- e))) by lia.
      apply Z.quot_div_nonneg; lia. }
    rewrite Hq. apply Z.div_le_upper_bound; lia.
Qed.

Lemma int_true_divide_unit (a b : Z) :
  0 <= a <= b -> 1 <= b -> exists q, int_true_divide a b = Ok q /\ at_most 1 q.
Proof.
  intros Ha Hb. unfold int_true_divide. destruct (Z.eqb_spec b 0); [lia |].
  unfold round_quotient.
  set (k := Z.max 0 (digits b - digits a + 55)).
  assert (Hk : 0 <= k) by (unfold k; lia).
  pose proof (pow2_pos k Hk) as Hp.
  rewrite (Z.abs_eq a), (Z.abs_eq b) by lia.
  set (q := (a * 2 ^ k) `div` b). set (r := (a * 2 ^ k) `mod` b).
  pose proof (Z.div_mod (a * 2 ^ k) b ltac:(lia)) as Hdm. fold q r in Hdm.
  pose proof (Z.mod_pos_bound (a * 2 ^ k) b ltac:(lia)) as Hr. fold r in Hr.
  assert (Hq0 : 0 <= q) by (apply Z.div_pos; nia).
  assert (Hq : 2 * q + (if r =? 0 then 0 else 1) <= 2 ^ (k + 1)).
  { rewrite pow2_split by lia. change (2 ^ 1) with 2.
    assert (q <= 2 ^ k) by (apply Z.div_le_upper_bound; nia).
    destruct (Z.eqb_spec r 0); [lia |].
    destruct (Z_lt_le_dec q (2 ^ k)); [lia |]. assert (q = 2 ^ k) by lia. nia. }
  destruct (round64_at_most
              (Z.sgn a * Z.sgn b * (2 * q + (if r =? 0 then 0 else 1))) (- k - 1) 1)
    as (m' & e' & Hrd & He' & Hbd & _).
  { lia. }
  { rewrite Z.max_l, Z.max_r by lia. change (2 ^ 0) with 1.
    replace (- (- k - 1)) with (k + 1) by lia.
    rewrite !Z.abs_mul.
    assert (Z.abs (Z.sgn a) <= 1 /\ Z.abs (Z.sgn b) = 1) as [? ->]
      by (destruct (Z.sgn_spec a) as [[? ->] | [[? ->] | [? ->]]];
          destruct (Z.sgn_spec b) as [[? ->] | [[? ->] | [? ->]]]; lia).
    assert (0 <= 2 * q + (if r =? 0 then 0 else 1)) by (destruct (r =? 0); lia).
    rewrite (Z.abs_eq (2 * q + _)) by assumption. nia. }
  rewrite Hrd. eexists. split; [reflexivity |]. apply at_most_intro; assumption.
Qed.

Lemma int_of_float_truncates (x : float) (z : Z) :
  int_of_float x = Ok z -> is_truncation (float_value x) z.
Proof.
  destruct x as [m e | |]; cbn [int_of_float float_value]; try discriminate.
  intros Hz. injection Hz as <-. unfold is_truncation.
  destruct (Z.leb_spec 0 e) as [He | He].
  - split; [lra |]. apply Rle_0_sqr.
  - pose proof (pow2_pos (- e) ltac:(lia)) as Hp. set (D := 2 ^ (- e)) in *.
    pose proof (Z.quot_rem' m D) as Hqr.
    assert (HD : (0 < IZR D)%R) by (apply IZR_lt; exact Hp).
    assert (Habs : Z.abs (m `quot` D) * D <= Z.abs m < (Z.abs (m `quot` D) + 1) * D).
    { assert (Hq : Z.abs (m `quot` D) = Z.abs m `div` D).
      { rewrite <- Z.quot_abs, (Z.abs_eq D) by lia. apply Z.quot_div_nonneg; lia. }
      rewrite Hq.
      pose proof (Z.div_mod (Z.abs m) D ltac:(lia)).
      pose proof (Z.mod_pos_bound (Z.abs m) D Hp). nia. }
    destruct Habs as [Hlo Hhi]. apply IZR_le in Hlo. apply IZR_lt in Hhi.
    rewrite mult_IZR, !abs_IZR in Hlo. rewrite mult_IZR, plus_IZR, !abs_IZR in Hhi.
    assert (Hv : Rabs (IZR m / IZR D) = (Rabs (IZR m) / IZR D)%R).
    { unfold Rdiv. rewrite Rabs_mult, (Rabs_pos_eq (/ IZR D)); [reflexivity |].
      left. apply Rinv_0_lt_compat, HD. }
    rewrite Hv. split.
    + split.
      * apply (Rmult_le_reg_r (IZR D)); [exact HD |].
        unfold Rdiv. rewrite Rmult_assoc, Rinv_l, Rmult_1_r by lra. exact Hlo.
      * apply (Rmult_lt_reg_r (IZR D)); [exact HD |].
        unfold Rdiv. rewrite Rmult_assoc, Rinv_l, Rmult_1_r by lra. exact Hhi.
    + assert (Hs : 0 <= m * (m `quot` D)).
      { destruct (Z_le_gt_dec 0 m).
        - assert (0 <= m `quot` D) by (apply Z.quot_pos; lia). nia.
        - assert (m `quot` D <= 0).
          { rewrite <- (Z.opp_involutive m), Z.quot_opp_l by lia.
            assert (0 <= (- m) `quot` D) by (apply Z.quot_pos; lia). lia. }
          nia. }
      apply IZR_le in Hs. rewrite mult_IZR in Hs.
      unfold Rdiv. replace (IZR m * / IZR D * IZR (m `quot` D))%R
        with ((IZR m * IZR (m `quot` D)) * / IZR D)%R by ring.
      apply Rmult_le_pos; [exact Hs |]. left. apply Rinv_0_lt_compat, HD.
Qed.

Lemma round64_not_nan (m e : Z) : round64 m e <> NaN.
Proof.
  unfold round64. destruct (m =? 0); [discriminate |].
  destruct (_ =? 2 ^ 53); destruct (_ =? 0); try discriminate;
    destruct (971 <? _); discriminate.
Qed.

Lemma round_quotient_zero (b : Z) : round_quotient 0 b = Finite 0 0.
Proof. unfold round_quotient. cbn [Z.sgn]. rewrite !Z.mul_0_l. reflexivity. Qed.

Lemma sample_libm_unit : sin_in_unit_interval (lm := sample_libm).
Proof.
  intros m e. cbn [libm_sin sample_libm].
  assert (Hall : Forall (fun '(_, _, (m', e')) => at_most 1 (Finite m' e')) sine_table).
  { unfold sine_table. repeat constructor; vm_compute; discriminate. }
  induction Hall as [| [[m0 e0] [m' e']] rest Hhd _ IH]; cbn [table_lookup].
  - vm_compute. discriminate.
  - destruct ((m =? m0) && (e =? e0)); [exact Hhd | exact IH].
Qed.

(** On the samples the product, the conversion of an int and the
    quotient of two ints are those of the standard library's
    specification of binary64 arithmetic. *)
Example float_mul_as_specified :
  forallb (fun x =>
    forallb (fun y =>
      same_as_spec (float_mul x y)
        (SpecFloat.SFmul 53 1024 (to_spec x) (to_spec y))) float_samples)
    float_samples = true.
Proof. vm_compute. reflexivity. Qed.

Example round64_as_specified :
  forallb (fun n =>
    same_as_spec (round64 n 0) (SpecFloat.binary_normalize 53 1024 n 0 false))
    int_samples = true.
Proof. vm_compute. reflexivity. Qed.

Example round_quotient_as_specified :
  forallb (fun '(a, b) =>
    same_as_spec (round_quotient a b)
      (SpecFloat.SFdiv 53 1024
         (SpecFloat.binary_normalize 53 1024 a 0 false)
         (SpecFloat.binary_normalize 53 1024 b 0 false)))
    quotient_samples = true.
Proof. vm_compute. reflexivity. Qed.

(** The offsets of the 30 frames of the default animation, bob height
    10, as CPython computes them. *)
Example offsets_of_default_cycle :
  map (fun i => bob_offset64 (lm := sample_libm) i 30 10) (range 30)
  = map Ok [0; 2; 4; 5; 7; 8; 9; 9; 9; 9; 8; 7; 5; 4; 2;
            0; -2; -4; -5; -7; -8; -9; -9; -9; -9; -8; -7; -5; -4; -2].
Proof. vm_compute. reflexivity. Qed.

(** Places where double arithmetic and exact arithmetic part: a twelfth
    of a turn with a bob height of 10, where the sine is just below one
    half; half a turn and the seam with a bob height of [10^17], where
    the sine of the double next to pi is not 0; and the preview of a
    frame 38 pixels wide, where [38 * (250 / 38)] is just below 250. *)
Example offset_of_twelfth_turn :
  bob_offset64 (lm := sample_libm) 1 12 10 = Ok 4.
Proof. vm_compute. reflexivity. Qed.

Example offset_of_half_turn :
  bob_offset64 (lm := sample_libm) 2 4 (10 ^ 17) = Ok 12 /\
  bob_offset64 (lm := sample_libm) 4 4 (10 ^ 17) = Ok (-24).
Proof. split; vm_compute; reflexivity. Qed.

Example preview_size_of_width_38 : preview_size 38 58 = Ok (249, 381).
Proof. vm_compute. reflexivity. Qed.

(** ** The motion model *)

Lemma bob_angle64_turn (i n : Z) :
  1 <= n -> 0 <= i <= n -> exists angle, bob_angle64 i n = Ok angle /\ at_most 8 angle.
Proof.
  intros Hn Hi. unfold bob_angle64.
  destruct (int_true_divide_unit i n Hi Hn) as (turn & -> & Hturn). cbn [result_bind].
  unfold float_mul_int.
  destruct (float_of_int_at_most 2 ltac:(vm_compute; reflexivity)) as (two & -> & Htwo).
  cbn [result_bind]. eexists. split; [reflexivity |].
  change 8 with (1 * Z.abs 2 * 4).
  apply float_mul_at_most; [| | vm_compute; reflexivity].
  - apply float_mul_at_most; [assumption | assumption | vm_compute; reflexivity].
  - vm_compute. discriminate.
Qed.

Lemma math_sin_unit {lm : Libm} (m e : Z) :
  sin_in_unit_interval -> exists s, math_sin (Finite m e) = Ok s /\ at_most 1 s.
Proof.
  intros Hsin. pose proof (Hsin m e) as Hs. cbn [math_sin].
  destruct (libm_sin (Finite m e)) as [m' e' | |]; cbn in Hs; try contradiction.
  eexists. split; [reflexivity | exact Hs].
Qed.

(** The product with the bob height, cut by [int()]. *)
Lemma scaled_sine_bounded (s : float) (h : Z) :
  at_most 1 s -> 0 <= h < 2 ^ 53 ->
  exists product off,
    float_mul_int s h = Ok product /\ int_of_float product = Ok off /\ Z.abs off <= h.
Proof.
  intros Hs Hh. unfold float_mul_int.
  destruct (float_of_int_at_most h) as (hf & -> & Hhf); [lia |].
  rewrite Z.abs_eq in Hhf by lia. cbn [result_bind].
  assert (Hp : at_most (1 * h) (float_mul s hf))
    by (apply float_mul_at_most; [assumption | assumption | lia]).
  rewrite Z.mul_1_l in Hp.
  destruct (int_of_float_at_most h _ Hp) as (off & Hoff & Hb).
  eauto.
Qed.

Lemma bob_offset64_bounded {lm : Libm} (i n h off : Z) :
  sin_in_unit_interval -> 0 <= h < 2 ^ 53 ->
  bob_offset64 i n h = Ok off -> Z.abs off <= h.
Proof.
  intros Hsin Hh. unfold bob_offset64.
  destruct (bob_angle64 i n) as [[m e | neg |] | e0]; cbn [result_bind];
    try discriminate.
  - destruct (math_sin_unit m e Hsin) as (s & -> & Hs). cbn [result_bind].
    destruct (scaled_sine_bounded s h Hs Hh) as (product & z & -> & Hz & Hb).
    cbn [result_bind]. rewrite Hz. intros Hoff. injection Hoff as <-. exact Hb.
  - cbn [math_sin result_bind]. unfold float_mul_int.
    destruct (float_of_int h) as [hf | e0]; cbn [result_bind]; [| discriminate].
    cbn [float_mul int_of_float]. discriminate.
Qed.

Lemma bob_offset64_ok {lm : Libm} (i n h : Z) :
  sin_in_unit_interval -> 1 <= n -> 0 <= i <= n -> 0 <= h < 2 ^ 53 ->
  exists off, bob_offset64 i n h = Ok off /\ Z.abs off <= h.
Proof.
  intros Hsin Hn Hi Hh. unfold bob_offset64.
  destruct (bob_angle64_turn i n Hn Hi) as (angle & -> & Hangle). cbn [result_bind].
  destruct angle as [m e | |]; cbn in Hangle; try contradiction.
  destruct (math_sin_unit m e Hsin) as (s & -> & Hs). cbn [result_bind].
  destruct (scaled_sine_bounded s h Hs Hh) as (product & off & -> & Hoff & Hb).
  cbn [result_bind]. eauto.
Qed.

Lemma bob_angle64_first (n : Z) : n <> 0 -> bob_angle64 0 n = Ok (Finite 0 0).
Proof.
  intros Hn. unfold bob_angle64, int_true_divide.
  destruct (Z.eqb_spec n 0); [contradiction |].
  rewrite round_quotient_zero. reflexivity.
Qed.

Lemma bob_offset64_first {lm : Libm} (n h : Z) (hf : float) :
  n <> 0 -> libm_sin (Finite 0 0) = Finite 0 0 -> float_of_int h = Ok hf ->
  bob_offset64 0 n h = Ok 0.
Proof.
  intros Hn Hsin Hh. unfold bob_offset64. rewrite bob_angle64_first by assumption.
  cbn [result_bind math_sin]. rewrite Hsin. cbn [result_bind].
  unfold float_mul_int. rewrite Hh. cbn [result_bind].
  unfold float_of_int in Hh. pose proof (round64_not_nan h 0) as Hnan.
  destruct (round64 h 0) as [m e | neg |]; try discriminate; [| contradiction].
  injection Hh as <-. cbn [float_mul]. rewrite Z.mul_0_l. reflexivity.
Qed.

(** Only the division raises [ZeroDivisionError]. *)
Lemma bob_offset64_no_division_error {lm : Libm} (i n h : Z) :
  n <> 0 -> bob_offset64 i n h <> Raise ZeroDivisionError.
Proof.
  intros Hn. unfold bob_offset64, bob_angle64, int_true_divide.
  destruct (Z.eqb_spec n 0); [contradiction |].
  assert (Htwo : forall x, float_mul_int x 2
                           = Ok (float_mul x (Finite 4503599627370496 (-51))))
    by reflexivity.
  destruct (round_quotient i n) as [m e | neg |]; cbn [result_bind];
    try discriminate; rewrite Htwo; cbn [result_bind];
    (destruct (float_mul _ math_pi) as [m' e' | neg' |]; cbn [math_sin result_bind];
     [destruct (libm_sin _); cbn [result_bind]; try discriminate
     | discriminate
     | ]);
    unfold float_mul_int, float_of_int;
    (destruct (round64 h 0); cbn [result_bind]; try discriminate);
    (destruct (float_mul _ _); discriminate).
Qed.

(** C1, as the code has it.  The angle is [frameIndex / frameCount * 2 *
    pi] computed in double precision, and the offset is [int()] of the
    double product [sin(angle) * bobHeight]: that product cut toward
    zero, not rounded.  The offset is returned for every index from 0 to
    the frame count when the sine stays in [[-1, 1]] and the bob height
    is below [2^53]; the offset of frame 0 is exactly 0 when [sin(0.0)]
    is [0.0] and the bob height fits a float; with a single frame the
    angle of every frame of the animation is [0.0]. *)
Theorem bob_offset_truncates {lm : Libm} (frame_index frame_count bob_height : Z) :
  (forall off,
     bob_offset64 frame_index frame_count bob_height = Ok off ->
     exists angle s product,
       bob_angle64 frame_index frame_count = Ok angle /\
       math_sin angle = Ok s /\
       float_mul_int s bob_height = Ok product /\
       int_of_float product = Ok off /\
       is_truncation (float_value product) off) /\
  (sin_in_unit_interval -> 1 <= frame_count ->
   0 <= frame_index <= frame_count -> 0 <= bob_height < 2 ^ 53 ->
   exists off, bob_offset64 frame_index frame_count bob_height = Ok off) /\
  (1 <= frame_count -> libm_sin (Finite 0 0) = Finite 0 0 ->
   forall hf, float_of_int bob_height = Ok hf ->
     bob_offset64 0 frame_count bob_height = Ok 0) /\
  (frame_count = 1 ->
   forall i, i ∈ range frame_count -> bob_angle64 i frame_count = Ok (Finite 0 0)).
Proof.
  split; [| split; [| split]].
  - intros off. unfold bob_offset64.
    destruct (bob_angle64 frame_index frame_count) as [angle | e0];
      cbn [result_bind]; [| discriminate].
    destruct (math_sin angle) as [s | e0] eqn:Hs; cbn [result_bind]; [| discriminate].
    destruct (float_mul_int s bob_height) as [product | e0] eqn:Hproduct;
      cbn [result_bind]; [| discriminate].
    intros Hoff. exists angle, s, product.
    split; [reflexivity |]. split; [exact Hs |]. split; [exact Hproduct |].
    split; [exact Hoff | apply int_of_float_truncates, Hoff].
  - intros Hsin Hn Hi Hh.
    destruct (bob_offset64_ok frame_index frame_count bob_height Hsin Hn Hi Hh)
      as (off & Hoff & _).
    eauto.
  - intros Hn Hsin hf Hh. apply (bob_offset64_first _ _ hf); [lia | assumption..].
  - intros -> i Hi. unfold range in Hi. apply elem_of_seqZ in Hi.
    assert (i = 0) as -> by lia. reflexivity.
Qed.

Lemma bob_offset_truncates_witness :
  exists product,
    float_mul_int (Finite 6369051672525772 (-53)) 5 = Ok product /\
    is_truncation (float_value product) 3.
Proof.
  destruct (proj1 (bob_offset_truncates (lm := sample_libm) 1 8 5) 3
              ltac:(vm_compute; reflexivity))
    as (angle & s & product & Hangle & Hs & Hproduct & _ & Htrunc).
  exists product. split; [| exact Htrunc].
  assert (Ha : angle = Finite 7074237752028440 (-53))
    by (vm_compute in Hangle; congruence).
  rewrite Ha in Hs. vm_compute in Hs. injection Hs as <-. exact Hproduct.
Defined.

(** C1 as stated fails: with 8 frames and a bob height of 5, frame 1 has
    [sin(angle) * bobHeight = 3.53...]; the code returns 3, and 3 is not a
    rounding of that value (any rounding gives 4). *)
Lemma bob_offset_not_rounded :
  bob_offset64 (lm := sample_libm) 1 8 5 = Ok 3 /\ ~ spec_offset 1 8 5 3.
Proof.
  pose proof sqrt2_bounds as [Hlo Hhi]. split.
  - vm_compute. reflexivity.
  - unfold spec_offset, is_rounding.
    replace (2 * PI * IZR 1 / IZR 8)%R with (IZR 1 / IZR 8 * 2 * PI)%R
      by (unfold Rdiv; ring).
    rewrite sin_eighth_turn_times_5.
    intros H. pose proof (Rle_abs (- (IZR 3 - 5 / 2 * sqrt 2))) as Habs.
    rewrite Rabs_Ropp in Habs. simpl in H, Habs. lra.
Qed.

(** C5, as the code has it.  For a sine that stays in [[-1, 1]] and a
    bob height from 0 to below [2^53], where every int is a float, an
    offset that is returned has a magnitude of at most the bob height,
    at every frame index and frame count; and for a frame count of at
    least 1 it is returned at every index from 0 to the frame count. *)
Theorem bob_offset_within_bob_height {lm : Libm}
    (frame_index frame_count bob_height : Z) :
  sin_in_unit_interval -> 0 <= bob_height < 2 ^ 53 ->
  (forall off,
     bob_offset64 frame_index frame_count bob_height = Ok off ->
     Z.abs off <= bob_height) /\
  (1 <= frame_count -> 0 <= frame_index <= frame_count ->
   exists off,
     bob_offset64 frame_index frame_count bob_height = Ok off /\
     Z.abs off <= bob_height).
Proof.
  intros Hsin Hh. split.
  - intros off. apply bob_offset64_bounded; assumption.
  - intros Hn Hi. apply bob_offset64_ok; assumption.
Qed.

Lemma bob_offset_within_bob_height_witness :
  sin_in_unit_interval (lm := sample_libm) /\ 0 <= 10 < 2 ^ 53 /\
  exists off, bob_offset64 (lm := sample_libm) 1 12 10 = Ok off /\ Z.abs off <= 10.
Proof.
  split; [exact sample_libm_unit |]. split; [lia |].
  apply (bob_offset_within_bob_height (lm := sample_libm) 1 12 10
           sample_libm_unit ltac:(lia)); lia.
Defined.

(** C5 as stated fails: a bob height of [2^53 + 3] is not a float, the
    product is taken with the float next to it, [2^53 + 4], and at a
    quarter of a turn, where the sine is [1.0], the offset is
    [2^53 + 4]. *)
Lemma bob_offset_exceeds_bob_height :
  bob_offset64 (lm := sample_libm) 1 4 9007199254740995 = Ok 9007199254740996 /\
  ~ Z.abs 9007199254740996 <= 9007199254740995.
Proof. split; [vm_compute; reflexivity | lia]. Qed.

(** ** Images *)

Lemma in_image_spec (im : Image) (x y : Z) :
  in_image im x y = true <-> 0 <= x < width im /\ 0 <= y < height im.
Proof. unfold in_image. rewrite !andb_true_iff. lia. Qed.

Lemma Image_new_ok (m : Mode) (w h : Z) (color : Pixel) :
  0 <= w -> 0 <= h ->
  Image_new m (w, h) color =
  Ok (mkImage m w h (replicate (Z.to_nat h) (replicate (Z.to_nat w) color))).
Proof.
  intros Hw Hh. unfold Image_new.
  destruct (Z.ltb_spec w 0); [lia |]. destruct (Z.ltb_spec h 0); [lia |]. reflexivity.
Qed.

Lemma in_image_true (im : Image) (x y : Z) :
  0 <= x < width im -> 0 <= y < height im -> in_image im x y = true.
Proof. intros Hx Hy. apply in_image_spec. auto. Qed.

Lemma getpixel_blank (m : Mode) (w h : Z) (color : Pixel) (x y : Z) :
  0 <= x < w -> 0 <= y < h ->
  getpixel (mkImage m w h (replicate (Z.to_nat h) (replicate (Z.to_nat w) color))) x y
  = Some color.
Proof.
  intros Hx Hy.
  assert (Hxn : (Z.to_nat x < Z.to_nat w)%nat) by lia.
  assert (Hyn : (Z.to_nat y < Z.to_nat h)%nat) by lia.
  unfold getpixel. rewrite in_image_true by assumption. cbn.
  rewrite lookup_replicate_2 by assumption. cbn. apply lookup_replicate_2, Hxn.
Qed.

Lemma getpixel_well_formed (im : Image) (x y : Z) :
  well_formed im -> 0 <= x < width im -> 0 <= y < height im ->
  exists px,
    getpixel im x y = Some px /\ length px = bands (mode im) /\
    Forall (fun c => 0 <= c <= 255) px.
Proof.
  intros (Hw & Hh & Hlen & Hrows) Hx Hy. unfold getpixel.
  rewrite in_image_true by assumption.
  destruct (lookup_lt_is_Some_2 (data im) (Z.to_nat y)) as [row Hrow]; [lia |].
  rewrite Forall_lookup in Hrows. destruct (Hrows _ _ Hrow) as [Hrl Hpx].
  destruct (lookup_lt_is_Some_2 row (Z.to_nat x)) as [px Hlook]; [lia |].
  rewrite Forall_lookup in Hpx. destruct (Hpx _ _ Hlook) as [Hb Hc].
  exists px. rewrite Hrow. cbn. auto.
Qed.

Lemma getpixel_outside (im : Image) (x y : Z) :
  ~ (0 <= x < width im /\ 0 <= y < height im) -> getpixel im x y = None.
Proof.
  intros Hout. unfold getpixel. destruct (in_image im x y) eqn:Hin; [| reflexivity].
  apply in_image_spec in Hin. contradiction.
Qed.

(** A pixel of the pasted image is the pixel that was there, put through
    [paste_pixel] at its own coordinates. *)
Lemma getpixel_paste (dst im r : Image) (bx by' : Z) (mask : option Image) (x y : Z) :
  paste dst im (bx, by') mask = Ok r ->
  getpixel r x y =
  paste_pixel (if decide (mode im = ModeRGBA) then im else convert_RGBA im)
    mask bx by' (Z.to_nat x) (Z.to_nat y) <$> getpixel dst x y.
Proof.
  unfold paste. intros Hp.
  destruct (match mask with Some _ => _ | None => _ end); [discriminate |].
  injection Hp as <-. unfold getpixel, in_image. cbn.
  destruct (_ && _); [| reflexivity].
  rewrite list_lookup_imap. destruct (data dst !! Z.to_nat y) as [row |]; cbn; [| reflexivity].
  rewrite list_lookup_imap. reflexivity.
Qed.

Lemma paste_size (dst im r : Image) (box : Z * Z) (mask : option Image) :
  paste dst im box mask = Ok r ->
  mode r = mode dst /\ width r = width dst /\ height r = height dst.
Proof.
  unfold paste. destruct box as [bx by']. intros Hp.
  destruct (match mask with Some _ => _ | None => _ end); [discriminate |].
  injection Hp as <-. auto.
Qed.

(** Pasting an image through its own alpha band always goes through when
    the image has one. *)
Lemma paste_self_mask_ok (dst im : Image) (box : Z * Z) :
  mode im = ModeRGBA -> exists r, paste dst im box (Some im) = Ok r.
Proof.
  intros Hm. unfold paste. destruct box as [bx by'].
  rewrite !Z.eqb_refl. cbn. rewrite Hm.
  destruct (decide (ModeRGBA = ModeRGB)); [discriminate |]. eauto.
Qed.

Lemma DIV255_times_255 (c : Z) : 0 <= c <= 255 -> DIV255 (c * 255) = c.
Proof.
  intros Hc. unfold DIV255. rewrite !Z.shiftr_div_pow2 by lia.
  change (2 ^ 8) with 256.
  assert (Hq : (c * 255 + 128) `div` 256 = if decide (c <= 128) then c else c - 1).
  { destruct (decide (c <= 128)).
    - symmetry. apply (Z.div_unique _ _ _ (128 - c)); lia.
    - symmetry. apply (Z.div_unique _ _ _ (384 - c)); lia. }
  rewrite Hq. destruct (decide (c <= 128)).
  - symmetry. apply (Z.div_unique _ _ _ 128); lia.
  - symmetry. apply (Z.div_unique _ _ _ 127); lia.
Qed.

(** Over a transparent background an opaque pixel is copied as it is and
    a pixel of alpha 0 leaves the background. *)
Lemma blend_opaque (px : Pixel) :
  length px = 4%nat -> Forall (fun c => 0 <= c <= 255) px ->
  blend 255 transparent px = px.
Proof.
  intros Hlen Hc. do 5 (destruct px as [| ? px]; try discriminate).
  repeat (apply Forall_cons in Hc as [? Hc]).
  unfold blend, transparent, BLEND8. cbn [zip_with].
  rewrite !Z.mul_0_l, !Z.add_0_l, !DIV255_times_255 by assumption. reflexivity.
Qed.

Lemma blend_clear (px : Pixel) :
  length px = 4%nat -> blend 0 transparent px = transparent.
Proof.
  intros Hlen. do 5 (destruct px as [| ? px]; try discriminate).
  unfold blend, transparent, BLEND8. cbn [zip_with].
  rewrite !Z.mul_0_l, !Z.mul_0_r. reflexivity.
Qed.

(** ** The compositor *)

Lemma create_frame_unfold (s : Animator) (img : Image) (i off : Z) :
  bob_offset i (frame_count s) (bob_height s) = Ok off ->
  0 <= width img -> 0 <= height img -> 0 <= bob_height s ->
  create_frame s img i =
  paste (mkImage ModeRGBA (width img + 20) (height img + bob_height s * 2 + 20)
           (replicate (Z.to_nat (height img + bob_height s * 2 + 20))
              (replicate (Z.to_nat (width img + 20)) transparent)))
        img ((width img + 20 - width img) `div` 2, 10 + bob_height s - off) (Some img).
Proof.
  intros Hoff Hw Hh Hb. unfold create_frame. rewrite Hoff. cbn [result_bind].
  rewrite Image_new_ok by lia. reflexivity.
Qed.

(** With valid parameters and an RGBA source, [create_frame] returns. *)
Lemma create_frame_ok (s : Animator) (img : Image) (i : Z) :
  mode img = ModeRGBA -> 0 <= width img -> 0 <= height img ->
  frame_count s <> 0 -> 0 <= bob_height s ->
  exists canvas, create_frame s img i = Ok canvas.
Proof.
  intros Hm Hw Hh Hn Hb.
  destruct (bob_offset_bounded i (frame_count s) (bob_height s) Hn Hb) as (off & Hoff & _).
  rewrite (create_frame_unfold s img i off) by assumption.
  apply paste_self_mask_ok, Hm.
Qed.

Lemma Image_new_checked_ok (m : Mode) (w h : Z) (color : Pixel) (blank : Image) :
  Image_new_checked m (w, h) color = Ok blank ->
  0 <= w < 2 ^ 31 /\ 0 <= h < 2 ^ 31 /\
  blank = mkImage m w h (replicate (Z.to_nat h) (replicate (Z.to_nat w) color)).
Proof.
  unfold Image_new_checked, Image_new.
  destruct (Z.leb_spec 0 w), (Z.leb_spec 0 h), (Z.leb_spec (2 ^ 31) w),
    (Z.leb_spec (2 ^ 31) h), (Z.ltb_spec w 0), (Z.ltb_spec h 0);
    cbn [andb orb]; intros Hnew; try discriminate; try lia.
  injection Hnew as <-. repeat split; lia.
Qed.

Lemma Image_new_checked_in_range (m : Mode) (w h : Z) (color : Pixel) :
  0 <= w < 2 ^ 31 -> 0 <= h < 2 ^ 31 ->
  Image_new_checked m (w, h) color =
  Ok (mkImage m w h (replicate (Z.to_nat h) (replicate (Z.to_nat w) color))).
Proof.
  intros Hw Hh. unfold Image_new_checked.
  destruct (Z.leb_spec (2 ^ 31) w); [lia |]. destruct (Z.leb_spec (2 ^ 31) h); [lia |].
  rewrite andb_false_r. apply Image_new_ok; lia.
Qed.

(** A frame that [create_frame64] returns is the source pasted on a
    blank canvas at the row its offset gives. *)
Lemma create_frame64_unfold {lm : Libm} (s : Animator) (img canvas : Image) (i : Z) :
  create_frame64 s img i = Ok canvas ->
  exists off,
    bob_offset64 i (frame_count s) (bob_height s) = Ok off /\
    0 <= width img + 20 < 2 ^ 31 /\
    0 <= height img + bob_height s * 2 + 20 < 2 ^ 31 /\
    paste (mkImage ModeRGBA (width img + 20) (height img + bob_height s * 2 + 20)
             (replicate (Z.to_nat (height img + bob_height s * 2 + 20))
                (replicate (Z.to_nat (width img + 20)) transparent)))
          img ((width img + 20 - width img) `div` 2, 10 + bob_height s - off) (Some img)
    = Ok canvas.
Proof.
  unfold create_frame64.
  destruct (bob_offset64 i (frame_count s) (bob_height s)) as [off | e];
    cbn [result_bind]; [| discriminate].
  destruct (Image_new_checked ModeRGBA
              (width img + 20, height img + bob_height s * 2 + 20) transparent)
    as [blank | e] eqn:Hnew; cbn [result_bind]; [| discriminate].
  apply Image_new_checked_ok in Hnew as (Hw & Hh & ->).
  intros Hpaste. exists off. auto.
Qed.

(** C2.  For every well-formed RGBA source, every frame index, every
    frame count and every non-negative bob height: once the offset is
    computed and [Image.new] has given the canvas, the frame is returned;
    and a frame that is returned is an RGBA canvas of exactly
    [(w + 20, h + 2 * bobHeight + 20)], with the source put with its
    left edge at [(canvasWidth - w) div 2] and its top edge at
    [10 + bobHeight - offset], for the offset the motion model computes
    in double precision.  Every canvas pixel that the source does not
    cover is [(0, 0, 0, 0)], and a covered pixel is the source pixel
    blended through its own alpha over that transparent background (so
    an opaque source pixel is copied as it is).  The source lies inside
    the canvas from left to right, and from top to bottom when the sine
    stays in [[-1, 1]]. *)
Theorem create_frame_geometry {lm : Libm} (s : Animator) (img : Image)
    (frame_index : Z) :
  well_formed img -> mode img = ModeRGBA -> 0 <= bob_height s ->
  (forall off blank,
     bob_offset64 frame_index (frame_count s) (bob_height s) = Ok off ->
     Image_new_checked ModeRGBA
       (width img + 20, height img + bob_height s * 2 + 20) transparent = Ok blank ->
     exists canvas, create_frame64 s img frame_index = Ok canvas) /\
  (forall canvas,
     create_frame64 s img frame_index = Ok canvas ->
     exists off,
       bob_offset64 frame_index (frame_count s) (bob_height s) = Ok off /\
       mode canvas = ModeRGBA /\
       width canvas = width img + 20 /\
       height canvas = height img + 2 * bob_height s + 20 /\
       let img_x := (width canvas - width img) `div` 2 in
       let img_y := 10 + bob_height s - off in
       (0 <= img_x /\ img_x + width img <= width canvas) /\
       (sin_in_unit_interval ->
        0 <= img_y /\ img_y + height img <= height canvas) /\
       forall x y, 0 <= x < width canvas -> 0 <= y < height canvas ->
         match getpixel img (x - img_x) (y - img_y) with
         | None => getpixel canvas x y = Some transparent
         | Some px =>
             exists a, px !! 3%nat = Some a /\
               getpixel canvas x y = Some (blend a transparent px) /\
               (a = 255 -> getpixel canvas x y = Some px)
         end).
Proof.
  intros Hwf Hm Hb.
  pose proof Hwf as (Hw & Hh & _). split.
  { intros off blank Hoff Hnew. unfold create_frame64. rewrite Hoff. cbn [result_bind].
    rewrite Hnew. cbn [result_bind]. apply paste_self_mask_ok, Hm. }
  intros canvas Hframe.
  destruct (create_frame64_unfold s img canvas frame_index Hframe)
    as (off & Hoff & Hcw31 & Hch31 & Hpaste).
  destruct (paste_size _ _ _ _ _ Hpaste) as (Hcm & Hcw & Hch). cbn in Hcm, Hcw, Hch.
  exists off. split; [exact Hoff |].
  split; [exact Hcm |]. split; [exact Hcw |]. split; [lia |].
  rewrite Hcw, Hch. cbn zeta.
  replace ((width img + 20 - width img) `div` 2) with 10
    in * by (replace (width img + 20 - width img) with (10 * 2) by lia;
             symmetry; apply Z.div_mul; lia).
  split; [lia |]. split.
  { intros Hsin.
    assert (Hbound : Z.abs off <= bob_height s).
    { apply (bob_offset64_bounded frame_index (frame_count s)); [exact Hsin | | exact Hoff].
      change (2 ^ 53) with 9007199254740992. change (2 ^ 31) with 2147483648 in Hch31.
      lia. }
    lia. }
  intros x y Hx Hy.
  rewrite (getpixel_paste _ _ _ _ _ _ x y Hpaste).
  rewrite getpixel_blank by lia. cbn [fmap option_fmap option_map].
  destruct (decide (mode img = ModeRGBA)); [| contradiction].
  unfold paste_pixel. rewrite !Z2Nat.id by lia.
  destruct (getpixel img (x - 10) (y - (10 + bob_height s - off))) as [px |] eqn:Hpx;
    [| reflexivity].
  assert (Hin : 0 <= x - 10 < width img /\
                0 <= y - (10 + bob_height s - off) < height img).
  { unfold getpixel in Hpx.
    destruct (in_image img _ _) eqn:Hin; [| discriminate]. apply in_image_spec, Hin. }
  destruct (getpixel_well_formed img _ _ Hwf (proj1 Hin) (proj2 Hin))
    as (px' & Hpx' & Hlen & Hbytes).
  rewrite Hpx in Hpx'. injection Hpx' as <-. rewrite Hm in Hlen. cbn in Hlen.
  destruct (lookup_lt_is_Some_2 px 3) as [a Ha]; [lia |].
  exists a. split; [exact Ha |].
  cbn [mbind option_bind]. rewrite Hm. cbn [mask_alpha]. rewrite Ha.
  split; [reflexivity |].
  intros ->. rewrite blend_opaque by assumption. reflexivity.
Qed.

(** ** The two schedulers as functions *)

Lemma with_frames_same (s : Animator) : with_frames s (frames s) = s.
Proof. destruct s. reflexivity. Qed.

Lemma world_eta (w : World) : mkWorld (self w) (disk w) = w.
Proof. destruct w. reflexivity. Qed.



Lemma collect_frames {I} (g : I -> result Image) (l : list I) (k : nat) (f : Image) :
  fst (collect g l) !! k = Some f -> exists i, l !! k = Some i /\ g i = Ok f.
Proof.
  revert k. induction l as [| i l IH]; intros k Hk; [discriminate |].
  cbn in Hk. destruct (g i) as [f0 |] eqn:Hgi; [| discriminate].
  destruct (collect g l) as [fs e]. destruct k as [| k]; cbn in Hk.
  - injection Hk as ->. exists i. auto.
  - destruct (IH k Hk) as (j & Hj & Hgj). exists j. auto.
Qed.




(** The sequential loop keeps what was in [self.frames] and appends. *)
Lemma sequential_loop (img : Image) (l : list Z) (s : Animator) (d : Disk)
    (prior : list Image) :
  for_each l (fun i =>
      let* s := get_self in
      let* frame := lift (create_frame s img i) in
      frames_append frame)
    (mkWorld (with_frames s prior) d)
  = (outcome_of (snd (collect (create_frame s img) l)),
     mkWorld (with_frames s (prior ++ fst (collect (create_frame s img) l))) d).
Proof.
  revert prior. induction l as [| i l IH]; intros prior.
  - cbn. rewrite app_nil_r. reflexivity.
  - cbn [for_each collect]. unfold bind at 1. unfold bind at 1. cbn [get_self self].
    unfold bind at 1. unfold lift at 1.
    change (create_frame (with_frames s prior) img i) with (create_frame s img i).
    destruct (create_frame s img i) as [frame | e].
    + unfold frames_append at 1. cbn [self disk frames with_frames].
      change (with_frames (with_frames s prior) (prior ++ [frame]))
        with (with_frames s (prior ++ [frame])).
      rewrite IH. destruct (collect (create_frame s img) l) as [fs e]. cbn [fst snd].
      rewrite <- app_assoc. reflexivity.
    + cbn. rewrite app_nil_r. reflexivity.
Qed.

(** The loop over the futures does the same from an empty list: a future
    that failed is recomputed, and fails again. *)
Lemma futures_loop (img : Image) (l : list Z) (s : Animator) (d : Disk)
    (prior : list Image) :
  for_each (map (fun i => (i, create_frame s img i)) l) (fun '(i, future) =>
      try_except
        (let* frame := lift future in frames_append frame)
        (fun e =>
           let* s := get_self in
           let* frame := lift (create_frame s img i) in
           frames_append frame))
    (mkWorld (with_frames s prior) d)
  = (outcome_of (snd (collect (create_frame s img) l)),
     mkWorld (with_frames s (prior ++ fst (collect (create_frame s img) l))) d).
Proof.
  revert prior. induction l as [| i l IH]; intros prior.
  - cbn. rewrite app_nil_r. reflexivity.
  - cbn [for_each collect map]. unfold bind at 1. unfold try_except at 1.
    unfold bind at 1. unfold lift at 1.
    destruct (create_frame s img i) as [frame | e] eqn:Hframe.
    + unfold frames_append at 1. cbn [self disk frames with_frames].
      change (with_frames (with_frames s prior) (prior ++ [frame]))
        with (with_frames s (prior ++ [frame])).
      rewrite IH. destruct (collect (create_frame s img) l) as [fs e]. cbn [fst snd].
      rewrite <- app_assoc. reflexivity.
    + unfold bind at 1. cbn [get_self self]. unfold bind at 1. unfold lift at 1.
      change (create_frame (with_frames s prior) img i) with (create_frame s img i).
      rewrite Hframe. cbn. rewrite app_nil_r. reflexivity.
Qed.

Lemma sequential_spec (img : Image) (w : World) :
  let c := collect (create_frame (self w) img) (range (frame_count (self w))) in
  _create_frames_sequential img w
  = (outcome_of (snd c),
     mkWorld (with_frames (self w) (frames (self w) ++ fst c)) (disk w)).
Proof.
  cbn zeta. destruct w as [s d]. cbn [self disk].
  pose proof (sequential_loop img (range (frame_count s)) s d (frames s)) as Hloop.
  rewrite with_frames_same in Hloop. exact Hloop.
Qed.

Lemma parallel_spec (img : Image) (w : World) :
  1 <= max_workers (self w) ->
  let c := collect (create_frame (self w) img) (range (frame_count (self w))) in
  _create_frames_parallel img w
  = (outcome_of (snd c), mkWorld (with_frames (self w) (fst c)) (disk w)).
Proof.
  intros Hw. cbn zeta. unfold _create_frames_parallel, bind at 1. cbn [get_self].
  destruct (Z.leb_spec (max_workers (self w)) 0); [lia |].
  unfold bind at 1, put_frames at 1.
  rewrite futures_loop. reflexivity.
Qed.

Lemma parallel_no_workers (img : Image) (w : World) :
  max_workers (self w) <= 0 ->
  _create_frames_parallel img w
  = (Raise (ValueError "max_workers must be greater than 0"), w).
Proof.
  intros Hw. unfold _create_frames_parallel, bind at 1. cbn [get_self].
  destruct (Z.leb_spec (max_workers (self w)) 0); [reflexivity | lia].
Qed.

(** ** The worker pool *)

Lemma count_where_cons (q : Future -> bool) (f : Future) (l : list Future) :
  count_where q (f :: l) = ((if q f then 1 else 0) + count_where q l)%nat.
Proof.
  unfold count_where. rewrite filter_cons.
  destruct (decide (q f = true)) as [Hq | Hq].
  - rewrite Hq. reflexivity.
  - apply not_true_is_false in Hq. rewrite Hq. reflexivity.
Qed.


Lemma count_where_replicate_pending (q : Future -> bool) (n : nat) :
  count_where q (replicate n Pending) = if q Pending then n else 0%nat.
Proof.
  induction n as [| n IH]; cbn [replicate].
  - destruct (q Pending); reflexivity.
  - rewrite count_where_cons, IH. destruct (q Pending); reflexivity.
Qed.


Section ExecutorFacts.
Variable task : nat -> result Image.
Variable workers : Z.
Variable n : nat.










End ExecutorFacts.

(** ** Frame generation *)

Lemma collect_ext {I} (g g' : I -> result Image) (l : list I) :
  (forall i, g i = g' i) -> collect g l = collect g' l.
Proof.
  intros Hext. induction l as [| i l IH]; [reflexivity |].
  cbn. rewrite Hext, IH. reflexivity.
Qed.


Lemma range_length (n : Z) : length (range n) = Z.to_nat n.
Proof. unfold range. apply length_seqZ. Qed.

Lemma scheduler_sequential (s : Animator) :
  scheduler s = Sequential <-> use_multiprocessing s = false \/ frame_count s <= 4.
Proof.
  unfold scheduler. rewrite Z.gtb_ltb.
  destruct (use_multiprocessing s); cbn [andb].
  - destruct (Z.ltb_spec 4 (frame_count s)) as [Hgt | Hle].
    + split; [discriminate |]. intros [Hf | Hf]; [discriminate | lia].
    + split; [right; exact Hle | reflexivity].
  - split; [left; reflexivity | reflexivity].
Qed.

Lemma scheduler_parallel (s : Animator) :
  scheduler s = Parallel <-> use_multiprocessing s = true /\ 4 < frame_count s.
Proof.
  unfold scheduler. rewrite Z.gtb_ltb.
  destruct (use_multiprocessing s); cbn [andb].
  - destruct (Z.ltb_spec 4 (frame_count s)) as [Hgt | Hle].
    + split; [split; [reflexivity | exact Hgt] | reflexivity].
    + split; [discriminate |]. intros [_ Hf]. lia.
  - split; [discriminate |]. intros [Hf _]. discriminate.
Qed.




(** ** Saving *)

Lemma save_to_writable (path : string) (g : Gif) (w : World) :
  writable (disk w) path = true ->
  save_to path g w
  = (Ok tt, mkWorld (self w)
              (mkDisk (<[path := FileGif g]> (files (disk w))) (writable (disk w)))).
Proof. intros Hw. unfold save_to, Image_save. rewrite Hw. reflexivity. Qed.

Lemma save_to_unwritable (path : string) (g : Gif) (w : World) :
  writable (disk w) path = false ->
  save_to path g w = (Raise (PermissionError path), w).
Proof. intros Hw. unfold save_to, Image_save. rewrite Hw. reflexivity. Qed.

Lemma standard_gif_spec (w : World) :
  frames (self w) <> [] ->
  _save_standard_gif w
  = save_to (output_path (self w))
      (mkGif (RGBAFrames (frames (self w))) (frame_duration (self w)) 0 2 true (Some 0)) w.
Proof.
  intros Hne. unfold _save_standard_gif, bind, get_self.
  destruct (frames (self w)) as [| first rest]; [contradiction | reflexivity].
Qed.

(** A failed optimization step has changed nothing: the [except] branch
    starts from the world the [try] block started from. *)
Lemma optimized_body_raise {pil : Pillow} (w w' : World) (e : exn) :
  optimized_body w = (Raise e, w') -> w' = w.
Proof.
  unfold optimized_body, bind, get_self, lift.
  destruct (build_palette (frames (self w))) as [combined_p | e1];
    [| intros Hb; injection Hb as _ <-; reflexivity].
  destruct (quantize_frames (frames (self w)) combined_p) as [[| first_p rest_p] | e2];
    try (intros Hb; injection Hb as _ <-; reflexivity).
  unfold save_to. destruct (Image_save _ _ _); [discriminate |].
  intros Hb. injection Hb as _ <-. reflexivity.
Qed.

Lemma optimization_fails_raise {pil : Pillow} (w : World) :
  optimization_fails (frames (self w)) ->
  exists e, optimized_body w = (Raise e, w).
Proof.
  unfold optimized_body, bind, get_self, lift.
  intros [[e He] | (combined_p & e & Hp & He)].
  - rewrite He. eauto.
  - rewrite Hp, He. eauto.
Qed.

Lemma optimization_fallback {pil : Pillow} (w : World) :
  frames (self w) <> [] ->
  optimization_fails (frames (self w)) ->
  _save_optimized_gif w = _save_standard_gif w /\
  (optimize_gif (self w) = true -> save_gif w = _save_standard_gif w).
Proof.
  intros Hne Hfail.
  destruct (optimization_fails_raise w Hfail) as [e0 Hbody].
  assert (Hfall : _save_optimized_gif w = _save_standard_gif w).
  { unfold _save_optimized_gif, try_except. rewrite Hbody. reflexivity. }
  split; [exact Hfall |].
  intros Hopt. unfold save_gif, bind at 1. cbn [get_self].
  destruct (frames (self w)) as [| f fs] eqn:Hfs; [contradiction |].
  rewrite Hopt. exact Hfall.
Qed.

(** C4, as the code has it.  For every non-empty frame list, when
    palette construction or the quantization of any frame fails, the
    optimized writer does exactly what the standard writer does on the
    original frames, called on the animator and the disk as they were
    before the attempt: the optimization is dropped for the whole batch
    and its failure is not what the caller sees.  The call returns, with
    the file the standard writer leaves, exactly when the standard
    writer returns, and the output path then holds a file; an exception
    that reaches the caller is one the standard writer raises. *)
Theorem optimization_failure_falls_back {pil : Pillow} (w : World) :
  frames (self w) <> [] ->
  optimization_fails (frames (self w)) ->
  _save_optimized_gif w = _save_standard_gif w /\
  (optimize_gif (self w) = true -> save_gif w = _save_standard_gif w) /\
  (forall w', _save_standard_gif w = (Ok tt, w') ->
     _save_optimized_gif w = (Ok tt, w') /\
     is_Some (files (disk w') !! output_path (self w))) /\
  (forall e w', _save_optimized_gif w = (Raise e, w') ->
     _save_standard_gif w = (Raise e, w')).
Proof.
  intros Hne Hfail.
  destruct (optimization_fallback w Hne Hfail) as [Hfall Hsave].
  split; [exact Hfall |]. split; [exact Hsave |].
  rewrite Hfall. split; [| auto].
  intros w' Hstd. split; [exact Hstd |].
  rewrite (standard_gif_spec w Hne) in Hstd. unfold save_to, Image_save in Hstd.
  destruct (writable (disk w) (output_path (self w))); [| discriminate].
  injection Hstd as <-. cbn [disk files]. rewrite lookup_insert_eq. eauto.
Qed.

(** C4 as stated fails: the fallback is the standard writer, and when
    that fails too the pipeline does not complete.  With a quantizer
    that fails and a destination that cannot be written, [save_gif]
    raises and no file is made. *)
Lemma fallback_failure_reaches_caller :
  let w := mkWorld (self one_frame_world) (read_only_disk sample_disk) in
  frames (self w) <> [] /\
  optimization_fails (pil := stub_pillow) (frames (self w)) /\
  optimize_gif (self w) = true /\
  save_gif (pil := stub_pillow) w = (Raise (PermissionError "dot_bobbing.gif"), w) /\
  files (disk w) !! "dot_bobbing.gif" = None.
Proof.
  intros w.
  assert (Hne : frames (self w) <> []) by (cbn; discriminate).
  assert (Hfail : optimization_fails (pil := stub_pillow) (frames (self w))).
  { right. eexists. eexists. split; vm_compute; reflexivity. }
  split; [exact Hne |]. split; [exact Hfail |].
  split; [reflexivity |]. split; [| reflexivity].
  rewrite (proj2 (optimization_fallback (pil := stub_pillow) w Hne Hfail) eq_refl).
  rewrite (standard_gif_spec w Hne). apply save_to_unwritable. reflexivity.
Qed.

(** C6.  With an empty frame list [save_gif] raises and leaves the disk,
    and the animator, as they were. *)
Theorem save_gif_rejects_no_frames {pil : Pillow} (w : World) :
  frames (self w) = [] ->
  save_gif w = (Raise (ValueError "No frames to save"), w).
Proof.
  intros Hnil. unfold save_gif, bind, get_self. rewrite Hnil. reflexivity.
Qed.

(** ** Loading *)

Lemma load_png_missing {pil : Pillow} (w : World) :
  files (disk w) !! png_path (self w) = None ->
  load_png w
  = (Raise (ValueError ("Error loading PNG file: "
                        +:+ exn_str (FileNotFoundError (png_path (self w))))), w).
Proof.
  intros Hf. unfold load_png, try_except, bind, get_self, get_disk, lift, Image_open.
  rewrite Hf. reflexivity.
Qed.

Lemma load_png_undecodable {pil : Pillow} (w : World) (f : File) :
  files (disk w) !! png_path (self w) = Some f -> decode f = None ->
  load_png w
  = (Raise (ValueError ("Error loading PNG file: "
                        +:+ exn_str (UnidentifiedImageError (png_path (self w))))), w).
Proof.
  intros Hf Hd. unfold load_png, try_except, bind, get_self, get_disk, lift, Image_open.
  rewrite Hf, Hd. reflexivity.
Qed.

Lemma load_png_decodable {pil : Pillow} (w : World) (f : File) (im : Image) :
  files (disk w) !! png_path (self w) = Some f -> decode f = Some im ->
  load_png w
  = (Ok (if decide (mode im = ModeRGBA) then im else convert_RGBA im), w).
Proof.
  intros Hf Hd. unfold load_png, try_except, bind, get_self, get_disk, lift, Image_open.
  rewrite Hf, Hd. destruct (decide (mode im = ModeRGBA)); reflexivity.
Qed.

Lemma byte_lookup (px : Pixel) (k : nat) :
  Forall (fun c => 0 <= c <= 255) px -> 0 <= default 0 (px !! k) <= 255.
Proof.
  intros Hpx. destruct (px !! k) as [c |] eqn:Hk; cbn; [| lia].
  rewrite Forall_lookup in Hpx. exact (Hpx _ _ Hk).
Qed.

Lemma to_rgba_well_formed (m : Mode) (px : Pixel) :
  length px = bands m -> Forall (fun c => 0 <= c <= 255) px ->
  length (to_rgba m px) = 4%nat /\ Forall (fun c => 0 <= c <= 255) (to_rgba m px).
Proof.
  intros Hlen Hpx. destruct m; cbn [to_rgba]; (split; [try reflexivity |]).
  - repeat constructor; try lia; apply byte_lookup, Hpx.
  - repeat constructor; try lia; apply byte_lookup, Hpx.
  - repeat constructor; try lia; apply byte_lookup, Hpx.
  - exact Hlen.
  - exact Hpx.
Qed.

Lemma convert_RGBA_well_formed (im : Image) :
  well_formed im -> well_formed (convert_RGBA im).
Proof.
  intros (Hw & Hh & Hlen & Hrows). unfold well_formed, convert_RGBA. cbn.
  split; [exact Hw |]. split; [exact Hh |]. split; [rewrite length_map; exact Hlen |].
  apply Forall_map. eapply Forall_impl; [exact Hrows |].
  cbn. intros row [Hrl Hpx]. split; [rewrite length_map; exact Hrl |].
  apply Forall_map. eapply Forall_impl; [exact Hpx |].
  cbn. intros px [Hb Hc]. apply to_rgba_well_formed; assumption.
Qed.

(** A source without alpha band comes out fully opaque. *)
Lemma convert_RGBA_opaque (im : Image) (x y : Z) (px : Pixel) :
  mode im = ModeL \/ mode im = ModeRGB ->
  getpixel (convert_RGBA im) x y = Some px -> px !! 3%nat = Some 255.
Proof.
  intros Hm. unfold getpixel, convert_RGBA. cbn.
  destruct (in_image _ x y); [| discriminate].
  rewrite list_lookup_fmap. destruct (data im !! Z.to_nat y) as [row |]; [| discriminate].
  cbn. rewrite list_lookup_fmap. destruct (row !! Z.to_nat x) as [q |]; [| discriminate].
  cbn. intros Hq. injection Hq as <-. destruct Hm as [-> | ->]; reflexivity.
Qed.

(** C7, as the code has it.  Both failure modes of the loader reach the
    caller as a [ValueError]; only its message, which quotes the
    underlying error, tells a missing path from undecodable bytes.  For
    every decodable file the loader returns an RGBA image of the same
    size: the decoded image itself when it is RGBA already, its RGBA
    conversion otherwise, well formed when the decoded image is and
    fully opaque when the source had no alpha band. *)
Theorem load_png_outcomes {pil : Pillow} (w : World) :
  let path := png_path (self w) in
  (files (disk w) !! path = None ->
   load_png w
   = (Raise (ValueError ("Error loading PNG file: "
                         +:+ exn_str (FileNotFoundError path))), w)) /\
  (forall f, files (disk w) !! path = Some f -> decode f = None ->
   load_png w
   = (Raise (ValueError ("Error loading PNG file: "
                         +:+ exn_str (UnidentifiedImageError path))), w)) /\
  (forall f im, files (disk w) !! path = Some f -> decode f = Some im ->
   exists img,
     load_png w = (Ok img, w) /\
     mode img = ModeRGBA /\ width img = width im /\ height img = height im /\
     (mode im = ModeRGBA -> img = im) /\
     (well_formed im -> well_formed img) /\
     (mode im = ModeL \/ mode im = ModeRGB ->
      forall x y px, getpixel img x y = Some px -> px !! 3%nat = Some 255)).
Proof.
  intros path. split; [apply load_png_missing |]. split; [apply load_png_undecodable |].
  intros f im Hf Hd. rewrite (load_png_decodable w f im Hf Hd).
  destruct (decide (mode im = ModeRGBA)) as [Hm | Hm].
  - exists im. split; [reflexivity |]. split; [exact Hm |].
    split; [reflexivity |]. split; [reflexivity |]. split; [reflexivity |].
    split; [auto |]. intros [Hl | Hl]; rewrite Hl in Hm; discriminate.
  - exists (convert_RGBA im). split; [reflexivity |]. split; [reflexivity |].
    split; [reflexivity |]. split; [reflexivity |]. split; [contradiction |].
    split; [apply convert_RGBA_well_formed |].
    intros Hl x y px. apply convert_RGBA_opaque, Hl.
Qed.

(** C7 as stated fails: a missing path and an undecodable file both
    raise [ValueError], so no two distinct exception classes tell the
    failure modes apart. *)
Lemma load_png_failures_share_class :
  fst (load_png (pil := stub_pillow) (sample_world 4 "missing.png"))
  = Raise (ValueError
      "Error loading PNG file: [Errno 2] No such file or directory: 'missing.png'") /\
  fst (load_png (pil := stub_pillow) (sample_world 4 "corrupt.png"))
  = Raise (ValueError
      "Error loading PNG file: cannot identify image file 'corrupt.png'") /\
  ~ exists c1 c2, loader_distinguishes (pil := stub_pillow) c1 c2.
Proof.
  assert (Hmissing :
    fst (load_png (pil := stub_pillow) (sample_world 4 "missing.png"))
    = Raise (ValueError
        "Error loading PNG file: [Errno 2] No such file or directory: 'missing.png'"))
    by (vm_compute; reflexivity).
  assert (Hcorrupt :
    fst (load_png (pil := stub_pillow) (sample_world 4 "corrupt.png"))
    = Raise (ValueError
        "Error loading PNG file: cannot identify image file 'corrupt.png'"))
    by (vm_compute; reflexivity).
  split; [exact Hmissing |]. split; [exact Hcorrupt |].
  intros (c1 & c2 & Hne & Hall).
  destruct (Hall (sample_world 4 "missing.png")) as [Hnone _].
  destruct (Hall (sample_world 4 "corrupt.png")) as [_ Hbad].
  destruct Hnone as (e1 & He1 & Hc1); [vm_compute; reflexivity |].
  destruct (Hbad (FileBytes [0; 0])) as (e2 & He2 & Hc2);
    [vm_compute; reflexivity | reflexivity |].
  rewrite Hmissing in He1. rewrite Hcorrupt in He2.
  injection He1 as <-. injection He2 as <-.
  apply Hne. rewrite <- Hc1, <- Hc2. reflexivity.
Qed.

(** ** The setters *)

(** C8, as the code has it.  [set_animation_params] checks no range:
    it never raises, every value supplied is stored exactly as given,
    whatever it is, and an omitted one leaves the attribute as it was;
    nothing else changes. *)
Theorem set_animation_params_stores_as_given (w : World) (n h d : option Z) :
  exists w',
    set_animation_params n h d w = (Ok tt, w') /\
    frame_count (self w') = default (frame_count (self w)) n /\
    bob_height (self w') = default (bob_height (self w)) h /\
    frame_duration (self w') = default (frame_duration (self w)) d /\
    frames (self w') = frames (self w) /\
    max_workers (self w') = max_workers (self w) /\
    disk w' = disk w.
Proof. eexists. split; [reflexivity |]. cbn. repeat split. Qed.

(** C8 as stated fails: a frame count of 0, a bob height of -1 and a
    frame duration of 0 are accepted and stored. *)
Lemma set_animation_params_accepts_out_of_range :
  fst (set_animation_params (Some 0) (Some (-1)) (Some 0) (sample_world 4 "dot.png"))
  = Ok tt /\
  frame_count (self (snd (set_animation_params (Some 0) (Some (-1)) (Some 0)
                            (sample_world 4 "dot.png")))) = 0 /\
  bob_height (self (snd (set_animation_params (Some 0) (Some (-1)) (Some 0)
                           (sample_world 4 "dot.png")))) = -1 /\
  frame_duration (self (snd (set_animation_params (Some 0) (Some (-1)) (Some 0)
                               (sample_world 4 "dot.png")))) = 0.
Proof. repeat split. Qed.

Lemma setters_keep_bound (cpu_count : Z) (calls : list SetterCall) (w : World) :
  max_workers (self w) <= cpu_count ->
  exists w',
    for_each calls (call_setter cpu_count) w = (Ok tt, w') /\
    max_workers (self w') <= cpu_count.
Proof.
  revert w. induction calls as [| c calls IH]; intros w Hb.
  - exists w. split; [reflexivity | exact Hb].
  - cbn [for_each]. unfold bind at 1.
    destruct c as [n h d | mp np og [m |]]; cbn [call_setter];
      unfold set_animation_params, set_performance_options, modify_self;
      apply IH; cbn; lia.
Qed.

(** C9, as the code has it.  The worker count never exceeds the
    hardware parallelism: construction sets it to
    [min(cpu_count, 8)]; the setter stores [min(requested, cpu_count)]
    when a value is requested and keeps the stored value otherwise; so
    after any sequence of setter calls on a new animator it is at most
    [cpu_count].  The ceiling of 8 is applied at construction only; it
    still bounds the stored value on hosts with at most 8 processors. *)
Theorem max_workers_bounded_by_cpu_count (cpu_count : Z) (png_path : string)
    (output_path : option string) (d : Disk) (calls : list SetterCall) :
  max_workers (__init__ cpu_count png_path output_path) = Z.min cpu_count 8 /\
  (forall w mp np og m,
     max_workers (self (snd (set_performance_options cpu_count mp np og (Some m) w)))
     = Z.min m cpu_count) /\
  (forall w mp np og,
     max_workers (self (snd (set_performance_options cpu_count mp np og None w)))
     = max_workers (self w)) /\
  exists w',
    for_each calls (call_setter cpu_count)
      (mkWorld (__init__ cpu_count png_path output_path) d) = (Ok tt, w') /\
    max_workers (self w') <= cpu_count /\
    (cpu_count <= 8 -> max_workers (self w') <= Z.min cpu_count 8).
Proof.
  split; [reflexivity |]. split; [reflexivity |]. split; [reflexivity |].
  destruct (setters_keep_bound cpu_count calls
              (mkWorld (__init__ cpu_count png_path output_path) d))
    as (w' & Hrun & Hb); [cbn; lia |].
  exists w'. split; [exact Hrun |]. split; [exact Hb | lia].
Qed.

(** C9 as stated fails: on a host with 16 processors a request for 12
    workers is stored as 12, above the ceiling of 8. *)
Lemma set_performance_options_exceeds_ceiling :
  max_workers (self (snd (set_performance_options 16 true true true (Some 12)
                            (sample_world 16 "dot.png")))) = 12 /\
  ~ 12 <= Z.min 16 8.
Proof. split; [reflexivity | cbn; lia]. Qed.

(** ** The pipeline *)

Lemma touches_only_refl (path : string) (w : World) : touches_only path w w.
Proof. split; reflexivity. Qed.

Lemma save_to_touches (path : string) (g : Gif) (w : World) :
  touches_only path w (snd (save_to path g w)).
Proof.
  unfold save_to, Image_save. destruct (writable (disk w) path); cbn.
  - split; [reflexivity |]. intros p Hp. apply lookup_insert_ne. congruence.
  - apply touches_only_refl.
Qed.

Lemma standard_gif_touches (w : World) :
  touches_only (output_path (self w)) w (snd (_save_standard_gif w)).
Proof.
  unfold _save_standard_gif, bind, get_self.
  destruct (frames (self w)); [apply touches_only_refl | apply save_to_touches].
Qed.

Lemma optimized_body_touches {pil : Pillow} (w : World) :
  touches_only (output_path (self w)) w (snd (optimized_body w)).
Proof.
  unfold optimized_body, bind, get_self, lift.
  destruct (build_palette (frames (self w))) as [combined_p |];
    [| apply touches_only_refl].
  destruct (quantize_frames (frames (self w)) combined_p) as [[| first_p rest_p] |];
    [apply touches_only_refl | apply save_to_touches | apply touches_only_refl].
Qed.

Lemma optimized_gif_touches {pil : Pillow} (w : World) :
  touches_only (output_path (self w)) w (snd (_save_optimized_gif w)).
Proof.
  unfold _save_optimized_gif, try_except.
  pose proof (optimized_body_touches w) as Hbody.
  destruct (optimized_body w) as [[[] | e] w'] eqn:Hb; cbn [snd] in *.
  - exact Hbody.
  - apply optimized_body_raise in Hb as ->. apply standard_gif_touches.
Qed.

Lemma save_gif_touches {pil : Pillow} (w : World) :
  touches_only (output_path (self w)) w (snd (save_gif w)).
Proof.
  unfold save_gif, bind, get_self.
  destruct (frames (self w)); [apply touches_only_refl |].
  destruct (optimize_gif (self w));
    [apply optimized_gif_touches | apply standard_gif_touches].
Qed.





(** ** The properties at sample inputs *)

Lemma red_dot_well_formed : well_formed red_dot.
Proof.
  unfold well_formed, red_dot. cbn.
  split; [lia |]. split; [lia |]. split; [reflexivity |].
  repeat constructor; lia.
Qed.

(** The second frame of eight for a single red pixel and a bob height
    of 5: the offset is 3 and the pixel is on row [10 + 5 - 3]. *)
Lemma create_frame_geometry_witness :
  let s := update_animation_params (__init__ 4 "dot.png" None) (Some 8) (Some 5) None in
  well_formed red_dot /\ mode red_dot = ModeRGBA /\ 0 <= bob_height s /\
  exists canvas,
    create_frame64 (lm := sample_libm) s red_dot 1 = Ok canvas /\
    bob_offset64 (lm := sample_libm) 1 (frame_count s) (bob_height s) = Ok 3 /\
    width canvas = 21 /\ height canvas = 31 /\
    getpixel canvas 10 12 = Some [255; 0; 0; 255] /\
    getpixel canvas 10 11 = Some transparent.
Proof.
  intros s.
  assert (Hb : 0 <= bob_height s) by (cbn; lia).
  split; [exact red_dot_well_formed |]. split; [reflexivity |]. split; [exact Hb |].
  destruct (proj1 (create_frame_geometry (lm := sample_libm) s red_dot 1
                     red_dot_well_formed eq_refl Hb)
              3 (mkImage ModeRGBA 21 31 (replicate 31 (replicate 21 transparent)))
              ltac:(vm_compute; reflexivity) ltac:(vm_compute; reflexivity))
    as [canvas Hframe].
  destruct (proj2 (create_frame_geometry (lm := sample_libm) s red_dot 1
                     red_dot_well_formed eq_refl Hb) canvas Hframe)
    as (off & Hoff & _ & Hw & Hh & _ & _ & Hpx).
  assert (off = 3) as -> by (vm_compute in Hoff; congruence).
  exists canvas. split; [exact Hframe |]. split; [vm_compute; reflexivity |].
  split; [exact Hw |]. split; [exact Hh |].
  rewrite Hw, Hh in Hpx.
  change (width red_dot) with 1 in Hpx. change (height red_dot) with 1 in Hpx.
  change (bob_height s) with 5 in Hpx.
  change ((1 + 20 - 1) `div` 2) with 10 in Hpx.
  split.
  - destruct (Hpx 10 12 ltac:(lia) ltac:(lia)) as (a & Ha & _ & Hopaque).
    cbn in Ha. injection Ha as <-. apply Hopaque. reflexivity.
  - apply (Hpx 10 11); lia.
Defined.

Lemma optimization_failure_falls_back_witness :
  frames (self one_frame_world) <> [] /\
  optimization_fails (pil := stub_pillow) (frames (self one_frame_world)) /\
  _save_optimized_gif (pil := stub_pillow) one_frame_world
  = _save_standard_gif one_frame_world.
Proof.
  assert (Hne : frames (self one_frame_world) <> []) by (cbn; discriminate).
  assert (Hfail : optimization_fails (pil := stub_pillow) (frames (self one_frame_world))).
  { right. eexists. eexists. split; vm_compute; reflexivity. }
  split; [exact Hne |]. split; [exact Hfail |].
  exact (proj1 (optimization_failure_falls_back (pil := stub_pillow)
                  one_frame_world Hne Hfail)).
Defined.

Lemma save_gif_rejects_no_frames_witness :
  frames (self (sample_world 4 "dot.png")) = [] /\
  save_gif (pil := stub_pillow) (sample_world 4 "dot.png")
  = (Raise (ValueError "No frames to save"), sample_world 4 "dot.png").
Proof.
  split; [reflexivity |].
  apply (save_gif_rejects_no_frames (pil := stub_pillow)). reflexivity.
Defined.


(** * Further properties of the code *)

(** ** More on the motion model *)



(** ** More on the compositor *)

Lemma create_frame_size (s : Animator) (img canvas : Image) (i : Z) :
  create_frame s img i = Ok canvas ->
  mode canvas = ModeRGBA /\
  width canvas = width img + 20 /\
  height canvas = height img + bob_height s * 2 + 20 /\
  0 <= width canvas /\ 0 <= height canvas.
Proof.
  unfold create_frame.
  destruct (bob_offset i (frame_count s) (bob_height s)) as [off |]; [| discriminate].
  cbn [result_bind]. unfold Image_new.
  destruct (Z.ltb_spec (width img + 20) 0); [discriminate |].
  destruct (Z.ltb_spec (height img + bob_height s * 2 + 20) 0); [discriminate |].
  cbn [orb result_bind]. intros Hp. apply paste_size in Hp as (Hm & Hw & Hh).
  cbn in Hm, Hw, Hh. rewrite Hm, Hw, Hh. auto.
Qed.

(** X4.  When [create_frame] raises.  A frame count of 0 raises
    [ZeroDivisionError], whatever the image, the frame index and the bob
    height, and nothing else does.  Once the offset is computed, a
    canvas size below 0 raises the [ValueError] of [Image.new], and a
    canvas size of [2^31] or more raises [OverflowError]. *)
Theorem create_frame_failures {lm : Libm} (s : Animator) (img : Image)
    (frame_index : Z) :
  (create_frame64 s img frame_index = Raise ZeroDivisionError <-> frame_count s = 0) /\
  (forall off,
     bob_offset64 frame_index (frame_count s) (bob_height s) = Ok off ->
     (width img + 20 < 0 \/ height img + bob_height s * 2 + 20 < 0 ->
      create_frame64 s img frame_index
      = Raise (ValueError "Width and height must be >= 0")) /\
     (0 <= width img + 20 -> 0 <= height img + bob_height s * 2 + 20 ->
      2 ^ 31 <= width img + 20 \/ 2 ^ 31 <= height img + bob_height s * 2 + 20 ->
      exists msg, create_frame64 s img frame_index = Raise (OverflowError msg))).
Proof.
  split.
  - split.
    + intros Hraise. destruct (Z.eq_dec (frame_count s) 0) as [| Hn]; [assumption |].
      exfalso. revert Hraise. unfold create_frame64.
      destruct (bob_offset64 frame_index (frame_count s) (bob_height s)) as [off | e]
        eqn:Hoff; cbn [result_bind].
      * unfold Image_new_checked, Image_new.
        destruct (_ && _); [discriminate |].
        destruct (_ || _); [discriminate |]. cbn [result_bind].
        unfold paste. destruct (negb _); [discriminate |].
        destruct (decide _); discriminate.
      * intros He. injection He as ->.
        apply (bob_offset64_no_division_error _ _ _ Hn Hoff).
    + intros Hn. unfold create_frame64, bob_offset64, bob_angle64, int_true_divide.
      rewrite Hn. reflexivity.
  - intros off Hoff. unfold create_frame64. rewrite Hoff. cbn [result_bind].
    unfold Image_new_checked, Image_new. split.
    + intros Hneg.
      destruct (Z.leb_spec 0 (width img + 20)), (Z.leb_spec 0 (height img + bob_height s * 2 + 20)),
        (Z.ltb_spec (width img + 20) 0), (Z.ltb_spec (height img + bob_height s * 2 + 20) 0);
        cbn [andb orb]; try reflexivity; lia.
    + intros Hw Hh Hbig.
      destruct (Z.leb_spec 0 (width img + 20)); [| lia].
      destruct (Z.leb_spec 0 (height img + bob_height s * 2 + 20)); [| lia].
      destruct (Z.leb_spec (2 ^ 31) (width img + 20)),
        (Z.leb_spec (2 ^ 31) (height img + bob_height s * 2 + 20));
        cbn [andb orb result_bind]; eauto; lia.
Qed.

Lemma create_frame_failures_witness :
  create_frame64 (lm := sample_libm)
    (update_animation_params (__init__ 4 "dot.png" None) (Some 0) None None) red_dot 3
  = Raise ZeroDivisionError /\
  create_frame64 (lm := sample_libm)
    (update_animation_params (__init__ 4 "dot.png" None) None (Some (-11)) None) red_dot 0
  = Raise (ValueError "Width and height must be >= 0").
Proof.
  split.
  - apply (create_frame_failures (lm := sample_libm)
             (update_animation_params (__init__ 4 "dot.png" None) (Some 0) None None)
             red_dot 3).
    reflexivity.
  - apply (proj2 (create_frame_failures (lm := sample_libm)
                    (update_animation_params (__init__ 4 "dot.png" None) None
                       (Some (-11)) None)
                    red_dot 0) 0).
    + vm_compute. reflexivity.
    + right. cbn. lia.
Defined.

Lemma DIV255_byte (x : Z) : 0 <= x <= 65025 -> 0 <= DIV255 x <= 255.
Proof.
  intros Hx. unfold DIV255. rewrite !Z.shiftr_div_pow2 by lia.
  change (2 ^ 8) with 256.
  assert (Hq : 0 <= (x + 128) `div` 256 <= 254).
  { split; [apply Z.div_pos; lia |].
    apply Z.lt_succ_r. apply Z.div_lt_upper_bound; lia. }
  split; [apply Z.div_pos; lia |].
  apply Z.lt_succ_r. apply Z.div_lt_upper_bound; lia.
Qed.

Lemma BLEND8_byte (a out inp : Z) :
  0 <= a <= 255 -> 0 <= out <= 255 -> 0 <= inp <= 255 ->
  0 <= BLEND8 a out inp <= 255.
Proof. intros Ha Ho Hi. unfold BLEND8. apply DIV255_byte. nia. Qed.

Lemma blend_rgba (a : Z) (out inp : Pixel) :
  0 <= a <= 255 -> is_rgba_pixel out -> is_rgba_pixel inp ->
  is_rgba_pixel (blend a out inp).
Proof.
  intros Ha [Hlo Ho] [Hli Hi]. unfold blend, is_rgba_pixel.
  split; [rewrite length_zip_with; lia |].
  apply Forall_lookup. intros k c Hk.
  apply lookup_zip_with_Some in Hk as (o & x & -> & Hok & Hxk).
  rewrite Forall_lookup in Ho, Hi.
  apply BLEND8_byte; [exact Ha | exact (Ho _ _ Hok) | exact (Hi _ _ Hxk)].
Qed.

Lemma well_formed_rgba_pixel (im : Image) (x y : Z) (px : Pixel) :
  well_formed im -> mode im = ModeRGBA -> getpixel im x y = Some px ->
  is_rgba_pixel px.
Proof.
  intros Hwf Hm Hpx.
  assert (Hin : 0 <= x < width im /\ 0 <= y < height im).
  { unfold getpixel in Hpx. destruct (in_image im x y) eqn:Hin; [| discriminate].
    apply in_image_spec, Hin. }
  destruct (getpixel_well_formed im x y Hwf (proj1 Hin) (proj2 Hin))
    as (px' & Hpx' & Hlen & Hbytes).
  rewrite Hpx in Hpx'. injection Hpx' as <-. rewrite Hm in Hlen. split; assumption.
Qed.

Lemma paste_pixel_rgba (src : Image) (mask : option Image) (bx by' : Z)
    (x y : nat) (out : Pixel) :
  well_formed src -> mode src = ModeRGBA ->
  (forall m, mask = Some m -> m = src) ->
  is_rgba_pixel out ->
  is_rgba_pixel (paste_pixel src mask bx by' x y out).
Proof.
  intros Hwf Hm Hmask Hout. unfold paste_pixel.
  destruct (getpixel src _ _) as [inp |] eqn:Hinp; [| exact Hout].
  pose proof (well_formed_rgba_pixel src _ _ inp Hwf Hm Hinp) as Hrgba.
  destruct mask as [m |]; [| exact Hrgba].
  rewrite (Hmask m eq_refl), Hinp. cbn [mbind option_bind]. rewrite Hm. cbn [mask_alpha].
  destruct (inp !! 3%nat) as [a |] eqn:Ha; [| exact Hout].
  apply blend_rgba; [| exact Hout | exact Hrgba].
  destruct Hrgba as [_ Hbytes]. rewrite Forall_lookup in Hbytes. exact (Hbytes _ _ Ha).
Qed.

(** Pasting a well-formed RGBA image, plainly or through its own alpha,
    keeps a well-formed RGBA destination well formed. *)
Lemma paste_well_formed (dst im r : Image) (box : Z * Z) (mask : option Image) :
  well_formed dst -> mode dst = ModeRGBA ->
  well_formed im -> mode im = ModeRGBA ->
  (forall m, mask = Some m -> m = im) ->
  paste dst im box mask = Ok r ->
  well_formed r /\ mode r = ModeRGBA.
Proof.
  intros (Hw & Hh & Hlen & Hrows) Hmd Hwf Hm Hmask. unfold paste.
  destruct box as [bx by']. destruct (decide (mode im = ModeRGBA)); [| contradiction].
  destruct (match mask with Some _ => _ | None => _ end); [discriminate |].
  intros Hr. injection Hr as <-. split; [| exact Hmd].
  unfold well_formed. cbn [mode width height data].
  split; [exact Hw |]. split; [exact Hh |].
  split; [rewrite length_imap; exact Hlen |].
  apply Forall_lookup. intros y row' Hy.
  rewrite list_lookup_imap in Hy.
  destruct (data dst !! y) as [row |] eqn:Hrow; [| discriminate].
  cbn in Hy. injection Hy as <-.
  rewrite Forall_lookup in Hrows. destruct (Hrows _ _ Hrow) as [Hrl Hpx].
  split; [rewrite length_imap; exact Hrl |].
  apply Forall_lookup. intros x px' Hx.
  rewrite list_lookup_imap in Hx.
  destruct (row !! x) as [out |] eqn:Hout; [| discriminate].
  cbn in Hx. injection Hx as <-.
  rewrite Forall_lookup in Hpx. specialize (Hpx _ _ Hout). rewrite Hmd in Hpx.
  rewrite Hmd. exact (paste_pixel_rgba im mask bx by' x y out Hwf Hm Hmask Hpx).
Qed.

Lemma blank_well_formed (w h : Z) :
  0 <= w -> 0 <= h ->
  well_formed (mkImage ModeRGBA w h
                 (replicate (Z.to_nat h) (replicate (Z.to_nat w) transparent))).
Proof.
  intros Hw Hh. unfold well_formed. cbn [mode width height data].
  split; [exact Hw |]. split; [exact Hh |].
  split; [apply length_replicate |].
  apply Forall_replicate. split; [apply length_replicate |].
  apply Forall_replicate. split; [reflexivity |].
  unfold transparent. repeat constructor; lia.
Qed.

Lemma create_frame_is_canvas_aux (s : Animator) (img canvas : Image) (i : Z) :
  well_formed img -> mode img = ModeRGBA ->
  create_frame s img i = Ok canvas ->
  is_canvas_of img (bob_height s) canvas.
Proof.
  intros Hwf Hm Hframe.
  destruct (create_frame_size s img canvas i Hframe)
    as (Hcm & Hcw & Hch & Hw & Hh).
  unfold is_canvas_of. split; [| auto].
  revert Hframe. unfold create_frame.
  destruct (bob_offset i (frame_count s) (bob_height s)) as [off |];
    [| discriminate].
  cbn [result_bind]. rewrite Image_new_ok by lia. cbn [result_bind].
  intros Hp.
  apply paste_well_formed in Hp as [Hcanvas _];
    [exact Hcanvas | apply blank_well_formed; lia | reflexivity
    | exact Hwf | exact Hm |].
  intros m Hs. injection Hs as <-. reflexivity.
Qed.

(** X5.  Every frame [create_frame] returns for a well-formed RGBA source is
    itself a well-formed RGBA image (every row as long as the width,
    every pixel four bytes) of the canvas size. *)
Theorem create_frame_is_canvas (s : Animator) (img canvas : Image) (frame_index : Z) :
  well_formed img -> mode img = ModeRGBA ->
  create_frame s img frame_index = Ok canvas ->
  is_canvas_of img (bob_height s) canvas.
Proof. apply create_frame_is_canvas_aux. Qed.

Lemma create_frame_is_canvas_witness :
  well_formed red_dot /\ mode red_dot = ModeRGBA /\
  exists canvas,
    create_frame (__init__ 4 "dot.png" None) red_dot 7 = Ok canvas /\
    is_canvas_of red_dot 10 canvas.
Proof.
  split; [exact red_dot_well_formed |]. split; [reflexivity |].
  destruct (create_frame_ok (__init__ 4 "dot.png" None) red_dot 7 eq_refl
              ltac:(cbn; lia) ltac:(cbn; lia) ltac:(cbn; lia) ltac:(cbn; lia))
    as [canvas Hframe].
  exists canvas. split; [exact Hframe |].
  exact (create_frame_is_canvas (__init__ 4 "dot.png" None) red_dot canvas 7
           red_dot_well_formed eq_refl Hframe).
Defined.

(** ** More on frame generation *)

Lemma collect_Forall {I} (g : I -> result Image) (l : list I) (P : Image -> Prop) :
  (forall i f, g i = Ok f -> P f) -> Forall P (fst (collect g l)).
Proof.
  intros Hg. apply Forall_lookup. intros k f Hk.
  apply collect_frames in Hk as (i & _ & Hi). exact (Hg i f Hi).
Qed.

(** X6.  Frame generation keeps [self.frames] a list of well-formed RGBA
    canvases of one size: if it is so before either scheduler runs on a
    well-formed RGBA source, it is so afterwards, whether the scheduler
    returns or raises. *)
Theorem generation_keeps_canvases (img : Image) (w : World) :
  well_formed img -> mode img = ModeRGBA ->
  Forall (is_canvas_of img (bob_height (self w))) (frames (self w)) ->
  Forall (is_canvas_of img (bob_height (self w)))
    (frames (self (snd (_create_frames_sequential img w)))) /\
  Forall (is_canvas_of img (bob_height (self w)))
    (frames (self (snd (_create_frames_parallel img w)))).
Proof.
  intros Hwf Hm Hprior.
  assert (Hnew : Forall (is_canvas_of img (bob_height (self w)))
                   (fst (collect (create_frame (self w) img)
                           (range (frame_count (self w)))))).
  { apply collect_Forall. intros i f Hf.
    exact (create_frame_is_canvas_aux (self w) img f i Hwf Hm Hf). }
  split.
  - rewrite sequential_spec. cbn. apply Forall_app. split; assumption.
  - destruct (Z.le_gt_cases (max_workers (self w)) 0) as [Hno | Hyes].
    + rewrite parallel_no_workers by exact Hno. exact Hprior.
    + rewrite parallel_spec by lia. cbn. exact Hnew.
Qed.

Lemma generation_keeps_canvases_witness :
  well_formed red_dot /\ mode red_dot = ModeRGBA /\
  Forall (is_canvas_of red_dot 10) (frames (self (sample_world 4 "dot.png"))) /\
  Forall (is_canvas_of red_dot 10)
    (frames (self (snd (_create_frames_parallel red_dot (sample_world 4 "dot.png"))))).
Proof.
  split; [exact red_dot_well_formed |]. split; [reflexivity |].
  split; [constructor |].
  exact (proj2 (generation_keeps_canvases red_dot (sample_world 4 "dot.png")
                  red_dot_well_formed eq_refl (Forall_nil_2 _))).
Defined.

(** ** More on saving *)

Lemma result_mapM_Forall2 {A B} (f : A -> result B) (l : list A) (bs : list B) :
  result_mapM f l = Ok bs -> Forall2 (fun a b => f a = Ok b) l bs.
Proof.
  revert bs. induction l as [| a l IH]; intros bs Hm; cbn in Hm.
  - injection Hm as <-. constructor.
  - destruct (f a) as [b |] eqn:Hfa; [| discriminate]. cbn in Hm.
    destruct (result_mapM f l) as [bs' |]; [| discriminate]. cbn in Hm.
    injection Hm as <-. constructor; [exact Hfa | apply IH; reflexivity].
Qed.

(** X8.  [save_gif] never changes the animator, and never changes a file
    other than the output, whether it returns or raises. *)
Theorem save_gif_only_writes_output {pil : Pillow} (w : World) :
  self (snd (save_gif w)) = self w /\
  forall p, p <> output_path (self w) ->
    files (disk (snd (save_gif w))) !! p = files (disk w) !! p.
Proof. exact (save_gif_touches w). Qed.

(** X9.  The palette is built from the first four frames only: frame lists
    that agree on their first four frames give the same palette, or the
    same failure. *)
Theorem build_palette_first_four {pil : Pillow} (fs1 fs2 : list Image) :
  take 4 fs1 = take 4 fs2 -> build_palette fs1 = build_palette fs2.
Proof.
  assert (Hcut : forall fs, build_palette fs = build_palette (take 4 fs)).
  { intros fs. unfold build_palette. rewrite take_take. cbn [Nat.min].
    replace (Z.min 4 (Z.of_nat (length (take 4 fs))))
      with (Z.min 4 (Z.of_nat (length fs))) by (rewrite length_take; lia).
    destruct fs; reflexivity. }
  intros Heq. rewrite (Hcut fs1), (Hcut fs2), Heq. reflexivity.
Qed.

Lemma build_palette_first_four_witness :
  take 4 [red_dot; red_dot; red_dot; red_dot; grey_dot]
  = take 4 [red_dot; red_dot; red_dot; red_dot; red_dot; red_dot] /\
  build_palette (pil := plain_pillow) [red_dot; red_dot; red_dot; red_dot; grey_dot]
  = build_palette (pil := plain_pillow) [red_dot; red_dot; red_dot; red_dot; red_dot; red_dot].
Proof.
  split; [reflexivity |].
  apply (build_palette_first_four (pil := plain_pillow)). reflexivity.
Defined.

(** *** The palette sample *)

Lemma paste_plain_ok (dst im : Image) (box : Z * Z) :
  exists r, paste dst im box None = Ok r.
Proof. unfold paste. destruct box. eauto. Qed.

Lemma getpixel_paste_plain (dst im r : Image) (bx by' x y : Z) :
  mode im = ModeRGBA ->
  paste dst im (bx, by') None = Ok r ->
  getpixel r x y =
  match getpixel dst x y with
  | None => None
  | Some out => Some (default out (getpixel im (x - bx) (y - by')))
  end.
Proof.
  intros Hm Hp. rewrite (getpixel_paste _ _ _ _ _ _ x y Hp).
  destruct (decide (mode im = ModeRGBA)); [| contradiction].
  destruct (getpixel dst x y) as [out |] eqn:Hout; [| reflexivity].
  assert (Hin : 0 <= x /\ 0 <= y).
  { unfold getpixel in Hout. destruct (in_image dst x y) eqn:Hin; [| discriminate].
    apply in_image_spec in Hin. lia. }
  cbn. unfold paste_pixel. rewrite !Z2Nat.id by lia.
  destruct (getpixel im (x - bx) (y - by')); reflexivity.
Qed.

Lemma blank_is_full (w h : Z) :
  is_full (mkImage ModeRGBA w h
             (replicate (Z.to_nat h) (replicate (Z.to_nat w) transparent))).
Proof.
  intros x y Hx Hy. cbn in Hx, Hy. rewrite getpixel_blank by assumption. eauto.
Qed.

(** The loop over the sample, from a canvas [c] and a first slot [i]:
    slot [i + j] of the canvas receives frame [j], and nothing outside
    the slots changes. *)
Lemma paste_samples_spec (W H : Z) (sample : list Image) (c : Image) (i : Z) :
  0 <= W -> 0 <= i ->
  Forall (fun f => mode f = ModeRGBA /\ width f = W /\ height f = H) sample ->
  is_full c ->
  exists c',
    paste_samples c i sample = Ok c' /\
    width c' = width c /\ height c' = height c /\ is_full c' /\
    (forall x y, x < i * W \/ (i + Z.of_nat (length sample)) * W <= x ->
       getpixel c' x y = getpixel c x y) /\
    (forall j frame x y px,
       sample !! j = Some frame -> getpixel frame x y = Some px ->
       (i + Z.of_nat j) * W + x < width c -> y < height c ->
       getpixel c' ((i + Z.of_nat j) * W + x) y = Some px).
Proof.
  intros HW. revert c i.
  induction sample as [| f rest IH]; intros c i Hi Hall Hfull.
  - exists c. cbn. repeat split; auto. intros j frame x y px Hj. discriminate.
  - apply Forall_cons in Hall as [(Hm & Hfw & Hfh) Hrest].
    cbn [paste_samples]. rewrite Hfw.
    destruct (paste_plain_ok c f (i * W, 0)) as [c1 Hc1]. rewrite Hc1. cbn [result_bind].
    destruct (paste_size _ _ _ _ _ Hc1) as (_ & Hw1 & Hh1).
    assert (Hpix : forall x y,
              getpixel c1 x y =
              match getpixel c x y with
              | None => None
              | Some out => Some (default out (getpixel f (x - i * W) (y - 0)))
              end) by (intros x y; apply (getpixel_paste_plain c f c1 _ _ x y Hm Hc1)).
    assert (Hfull1 : is_full c1).
    { intros x y Hx Hy. rewrite Hpix. rewrite Hw1 in Hx. rewrite Hh1 in Hy.
      destruct (Hfull x y Hx Hy) as [out ->]. eauto. }
    destruct (IH c1 (i + 1) ltac:(lia) Hrest Hfull1)
      as (c' & Hc' & Hw' & Hh' & Hfull' & Hout & Hin).
    exists c'. split; [exact Hc' |]. split; [lia |]. split; [lia |].
    split; [exact Hfull' |]. cbn [length].
    assert (Hfirst : forall x y, x < i * W \/ (i + 1) * W <= x ->
              getpixel c1 x y = getpixel c x y).
    { intros x y Hx. rewrite Hpix. destruct (getpixel c x y) as [out |]; [| reflexivity].
      rewrite getpixel_outside by (rewrite Hfw; lia). reflexivity. }
    split.
    + intros x y Hx. rewrite Hout by nia. apply Hfirst. nia.
    + intros j frame x y px Hj Hpx Hxw Hyh. destruct j as [| j]; cbn in Hj.
      * injection Hj as <-.
        assert (Hbox : 0 <= x < W /\ 0 <= y < H).
        { unfold getpixel in Hpx. destruct (in_image f x y) eqn:Hb; [| discriminate].
          apply in_image_spec in Hb. lia. }
        replace (i + Z.of_nat 0) with i in * by lia.
        rewrite Hout by nia. rewrite Hpix.
        destruct (Hfull (i * W + x) y ltac:(nia) ltac:(lia)) as [out ->].
        replace (i * W + x - i * W) with x by lia.
        replace (y - 0) with y by lia. rewrite Hpx. reflexivity.
      * replace (i + Z.of_nat (S j)) with (i + 1 + Z.of_nat j) in * by lia.
        apply (Hin j frame x y px Hj Hpx); lia.
Qed.

(** X10.  The image the palette is computed from is the sampled frames side by
    side.  For up to four RGBA frames of one size [W] x [H], the loop
    over the sample fills a blank canvas of width [W * count] so that
    pixel [(j * W + x, y)] of the result is pixel [(x, y)] of frame
    [j]. *)
Theorem palette_sample_is_concatenation (W H : Z) (sample : list Image) :
  0 <= W -> 0 <= H ->
  Forall (fun f => mode f = ModeRGBA /\ width f = W /\ height f = H) sample ->
  exists combined,
    result_bind
      (Image_new ModeRGBA (W * Z.of_nat (length sample), H) transparent)
      (fun blank => paste_samples blank 0 sample) = Ok combined /\
    width combined = W * Z.of_nat (length sample) /\
    height combined = H /\
    forall j frame x y px,
      sample !! j = Some frame -> getpixel frame x y = Some px ->
      getpixel combined (Z.of_nat j * W + x) y = Some px.
Proof.
  intros HW HH Hall. rewrite Image_new_ok by nia. cbn [result_bind].
  destruct (paste_samples_spec W H sample _ 0 HW ltac:(lia) Hall
              (blank_is_full (W * Z.of_nat (length sample)) H))
    as (c' & Hc' & Hw' & Hh' & _ & _ & Hin).
  cbn in Hw', Hh'. exists c'. split; [exact Hc' |]. split; [exact Hw' |].
  split; [exact Hh' |].
  intros j frame x y px Hj Hpx.
  assert (Hbox : 0 <= x < W /\ 0 <= y < H).
  { rewrite Forall_lookup in Hall. destruct (Hall _ _ Hj) as (_ & Hfw & Hfh).
    unfold getpixel in Hpx. destruct (in_image frame x y) eqn:Hb; [| discriminate].
    apply in_image_spec in Hb. lia. }
  pose proof (lookup_lt_Some _ _ _ Hj) as Hlt.
  assert (Hslot : (Z.of_nat j + 1) * W <= Z.of_nat (length sample) * W)
    by (apply Z.mul_le_mono_nonneg_r; lia).
  specialize (Hin j frame x y px Hj Hpx). cbn [width height] in Hin.
  replace (0 + Z.of_nat j) with (Z.of_nat j) in Hin by lia.
  apply Hin; lia.
Qed.

Lemma palette_sample_is_concatenation_witness :
  0 <= 1 /\ 0 <= 1 /\
  Forall (fun f => mode f = ModeRGBA /\ width f = 1 /\ height f = 1) [red_dot; red_dot] /\
  exists combined,
    result_bind (Image_new ModeRGBA (1 * 2, 1) transparent)
      (fun blank => paste_samples blank 0 [red_dot; red_dot]) = Ok combined /\
    getpixel combined 1 0 = Some [255; 0; 0; 255].
Proof.
  assert (Hall : Forall (fun f => mode f = ModeRGBA /\ width f = 1 /\ height f = 1)
                   [red_dot; red_dot]) by (repeat constructor).
  split; [lia |]. split; [lia |]. split; [exact Hall |].
  destruct (palette_sample_is_concatenation 1 1 [red_dot; red_dot]
              ltac:(lia) ltac:(lia) Hall) as (combined & Hc & _ & _ & Hpx).
  exists combined. split; [exact Hc |].
  exact (Hpx 1%nat red_dot 0 0 [255; 0; 0; 255] eq_refl eq_refl).
Defined.

(** ** More on the pipeline *)

Lemma save_gif_rejects_no_frames_aux {pil : Pillow} (w : World) :
  frames (self w) = [] ->
  save_gif w = (Raise (ValueError "No frames to save"), w).
Proof.
  intros Hnil. unfold save_gif, bind, get_self. rewrite Hnil. reflexivity.
Qed.

Lemma load_png_pure {pil : Pillow} (w : World) : snd (load_png w) = w.
Proof.
  unfold load_png, try_except, bind, get_self, get_disk, lift, raise, ret.
  destruct (Image_open (disk w) (png_path (self w))) as [img |]; [| reflexivity].
  destruct (decide (mode img = ModeRGBA)); reflexivity.
Qed.

Lemma load_png_result {pil : Pillow} (w : World) :
  load_png w = (fst (load_png w), w).
Proof. rewrite <- (load_png_pure w) at 3. apply surjective_pairing. Qed.

(** Either scheduler changes [self.frames] and nothing else. *)
Lemma generation_world (img : Image) (w : World) :
  (exists fs, snd (_create_frames_sequential img w)
              = mkWorld (with_frames (self w) fs) (disk w)) /\
  (exists fs, snd (_create_frames_parallel img w)
              = mkWorld (with_frames (self w) fs) (disk w)).
Proof.
  split.
  - rewrite sequential_spec. eexists. reflexivity.
  - destruct (Z.le_gt_cases (max_workers (self w)) 0) as [Hno | Hyes].
    + rewrite parallel_no_workers by exact Hno. exists (frames (self w)).
      cbn [snd]. rewrite with_frames_same, world_eta. reflexivity.
    + rewrite parallel_spec by lia. eexists. reflexivity.
Qed.

Lemma create_animation_cases {pil : Pillow} (w : World) :
  create_animation w
  = match fst (load_png w) with
    | Raise e => (Raise e, w)
    | Ok img =>
        match generate img w with
        | (Ok _, w1) => save_gif w1
        | (Raise e, w1) => (Raise e, w1)
        end
    end.
Proof.
  unfold create_animation, bind, generate. rewrite (load_png_result w). cbn [fst get_self].
  destruct (fst (load_png w)); [| reflexivity].
  destruct (scheduler (self w)); reflexivity.
Qed.

Lemma create_animation_touches {pil : Pillow} (w : World) :
  self (snd (create_animation w))
  = with_frames (self w) (frames (self (snd (create_animation w)))) /\
  forall p, p <> output_path (self w) ->
    files (disk (snd (create_animation w))) !! p = files (disk w) !! p.
Proof.
  rewrite create_animation_cases.
  destruct (fst (load_png w)) as [img | e].
  2:{ cbn [snd]. rewrite with_frames_same. auto. }
  assert (Hgen : exists fs,
            snd (generate img w) = mkWorld (with_frames (self w) fs) (disk w)).
  { unfold generate. destruct (generation_world img w) as [Hs Hp].
    destruct (scheduler (self w)); assumption. }
  destruct Hgen as [fs Hgen].
  destruct (generate img w) as [[[] | e] w1]; cbn [snd] in Hgen; subst w1.
  - destruct (save_gif_touches (mkWorld (with_frames (self w) fs) (disk w)))
      as [Hself Hfiles].
    cbn [self disk] in Hself, Hfiles. rewrite Hself. cbn [frames with_frames].
    split; [reflexivity | exact Hfiles].
  - cbn [snd self disk frames with_frames]. auto.
Qed.

(** X11.  A run of the pipeline changes no attribute of the animator other
    than [frames], and no file other than the output, whether it
    returns or raises. *)
Theorem create_animation_only_touches {pil : Pillow} (w : World) :
  self (snd (create_animation w))
  = with_frames (self w) (frames (self (snd (create_animation w)))) /\
  forall p, p <> output_path (self w) ->
    files (disk (snd (create_animation w))) !! p = files (disk w) !! p.
Proof. exact (create_animation_touches w). Qed.

Lemma create_animation_load_failure {pil : Pillow} (w : World) (e : exn) :
  load_png w = (Raise e, w) -> create_animation w = (Raise e, w).
Proof. intros Hload. unfold create_animation, bind. rewrite Hload. reflexivity. Qed.

(** X12.  A source that is missing or cannot be decoded stops the pipeline
    before any frame work: [create_animation] raises the loader's
    [ValueError] and leaves the animator, its frame list included, and
    the disk as they were. *)
Theorem create_animation_needs_source {pil : Pillow} (w : World) :
  (files (disk w) !! png_path (self w) = None \/
   exists f, files (disk w) !! png_path (self w) = Some f /\ decode f = None) ->
  exists msg, create_animation w = (Raise (ValueError msg), w).
Proof.
  intros [Hnone | (f & Hf & Hd)]; eexists; apply create_animation_load_failure.
  - apply load_png_missing, Hnone.
  - apply (load_png_undecodable w f Hf Hd).
Qed.

Lemma create_animation_needs_source_witness :
  files (disk (sample_world 4 "missing.png")) !! png_path (self (sample_world 4 "missing.png"))
  = None /\
  exists msg,
    create_animation (pil := stub_pillow) (sample_world 4 "missing.png")
    = (Raise (ValueError msg), sample_world 4 "missing.png").
Proof.
  assert (Hnone : files (disk (sample_world 4 "missing.png"))
                  !! png_path (self (sample_world 4 "missing.png")) = None)
    by (vm_compute; reflexivity).
  split; [exact Hnone |].
  apply (create_animation_needs_source (pil := stub_pillow)). left. exact Hnone.
Defined.

Lemma range_empty (n : Z) : n <= 0 -> range n = [].
Proof.
  intros Hn. unfold range, seqZ. replace (Z.to_nat n) with 0%nat by lia. reflexivity.
Qed.

(** X13.  A frame count of 0 or less produces no frame, and a new animator
    then has nothing to save: when the source loads, [create_animation]
    raises [ValueError('No frames to save')] and writes nothing. *)
Theorem create_animation_no_frames {pil : Pillow} (w : World) (f : File) (im : Image) :
  files (disk w) !! png_path (self w) = Some f -> decode f = Some im ->
  frame_count (self w) <= 0 -> frames (self w) = [] ->
  create_animation w = (Raise (ValueError "No frames to save"), w).
Proof.
  intros Hf Hd Hn Hnil.
  pose proof (load_png_decodable w f im Hf Hd) as Hload.
  assert (Hsched : scheduler (self w) = Sequential)
    by (apply scheduler_sequential; right; lia).
  unfold create_animation, bind at 1. rewrite Hload.
  unfold bind at 1. cbn [get_self]. rewrite Hsched. unfold bind at 1.
  rewrite sequential_spec. cbn zeta. rewrite (range_empty _ Hn). cbn [collect fst snd outcome_of].
  rewrite app_nil_r, with_frames_same, world_eta.
  apply save_gif_rejects_no_frames_aux, Hnil.
Qed.

Lemma create_animation_no_frames_witness :
  frame_count (self (snd (set_animation_params (Some 0) None None
                            (sample_world 4 "dot.png")))) <= 0 /\
  create_animation (pil := stub_pillow)
    (snd (set_animation_params (Some 0) None None (sample_world 4 "dot.png")))
  = (Raise (ValueError "No frames to save"),
     snd (set_animation_params (Some 0) None None (sample_world 4 "dot.png"))).
Proof.
  split; [cbn; lia |].
  apply (create_animation_no_frames (pil := stub_pillow) _
           (FileBytes [137; 80; 78; 71]) red_dot).
  - vm_compute. reflexivity.
  - reflexivity.
  - cbn. lia.
  - reflexivity.
Defined.

(** X14.  On the parallel path a worker count of 0 or less makes the pool
    constructor raise: when the source loads, [create_animation] raises
    [ValueError('max_workers must be greater than 0')] and leaves the
    frame list and the disk as they were. *)
Theorem create_animation_no_workers {pil : Pillow} (w : World) (f : File) (im : Image) :
  files (disk w) !! png_path (self w) = Some f -> decode f = Some im ->
  use_multiprocessing (self w) = true -> 4 < frame_count (self w) ->
  max_workers (self w) <= 0 ->
  create_animation w
  = (Raise (ValueError "max_workers must be greater than 0"), w).
Proof.
  intros Hf Hd Hmp Hn Hmw.
  pose proof (load_png_decodable w f im Hf Hd) as Hload.
  assert (Hsched : scheduler (self w) = Parallel)
    by (apply scheduler_parallel; auto).
  unfold create_animation, bind at 1. rewrite Hload.
  unfold bind at 1. cbn [get_self]. rewrite Hsched. unfold bind at 1.
  rewrite parallel_no_workers by exact Hmw. reflexivity.
Qed.

Lemma create_animation_no_workers_witness :
  max_workers (self (snd (set_performance_options 4 true true true (Some 0)
                            (sample_world 4 "dot.png")))) <= 0 /\
  create_animation (pil := stub_pillow)
    (snd (set_performance_options 4 true true true (Some 0) (sample_world 4 "dot.png")))
  = (Raise (ValueError "max_workers must be greater than 0"),
     snd (set_performance_options 4 true true true (Some 0) (sample_world 4 "dot.png"))).
Proof.
  split; [cbn; lia |].
  apply (create_animation_no_workers (pil := stub_pillow) _
           (FileBytes [137; 80; 78; 71]) red_dot).
  - vm_compute. reflexivity.
  - reflexivity.
  - reflexivity.
  - cbn. lia.
  - cbn. lia.
Defined.

(** ** The window *)

Lemma progress_loop (img : Image) (l : list Z) (s : Animator) (d : Disk)
    (prior : list Image) :
  frame_count s <> 0 ->
  for_each l (fun i =>
      let* s := get_self in
      let* frame := lift (create_frame s img i) in
      let* _ := frames_append frame in
      let* s := get_self in
      let* progress := lift (frame_progress i (frame_count s)) in
      ret tt)
    (mkWorld (with_frames s prior) d)
  = (outcome_of (snd (collect (create_frame s img) l)),
     mkWorld (with_frames s (prior ++ fst (collect (create_frame s img) l))) d).
Proof.
  intros Hn. revert prior. induction l as [| i l IH]; intros prior.
  - cbn. rewrite app_nil_r. reflexivity.
  - cbn [for_each collect]. unfold bind at 1. unfold bind at 1. cbn [get_self self].
    unfold bind at 1. unfold lift at 1.
    change (create_frame (with_frames s prior) img i) with (create_frame s img i).
    destruct (create_frame s img i) as [frame | e].
    + unfold bind at 1. unfold frames_append at 1. cbn [self disk frames with_frames].
      unfold bind at 1. cbn [get_self self]. unfold bind at 1. unfold lift at 1.
      change (frame_count (with_frames (with_frames s prior) (prior ++ [frame])))
        with (frame_count s).
      unfold frame_progress. destruct (Z.eqb_spec (frame_count s) 0); [contradiction |].
      unfold ret at 1.
      change (with_frames (with_frames s prior) (prior ++ [frame]))
        with (with_frames s (prior ++ [frame])).
      rewrite IH. destruct (collect (create_frame s img) l) as [fs e]. cbn [fst snd].
      rewrite <- app_assoc. reflexivity.
    + cbn. rewrite app_nil_r. reflexivity.
Qed.

Lemma progress_generation (img : Image) (w : World) :
  for_each (range (frame_count (self w))) (fun i =>
      let* s := get_self in
      let* frame := lift (create_frame s img i) in
      let* _ := frames_append frame in
      let* s := get_self in
      let* progress := lift (frame_progress i (frame_count s)) in
      ret tt) w
  = _create_frames_sequential img w.
Proof.
  rewrite sequential_spec. cbn zeta.
  destruct (Z.le_gt_cases (frame_count (self w)) 0) as [Hle | Hgt].
  - rewrite (range_empty _ Hle). cbn. rewrite app_nil_r, with_frames_same, world_eta.
    reflexivity.
  - destruct w as [s d]. cbn [self disk] in *.
    pose proof (progress_loop img (range (frame_count s)) s d (frames s)
                  ltac:(lia)) as Hloop.
    rewrite with_frames_same in Hloop. exact Hloop.
Qed.

Lemma progress_cases {pil : Pillow} (w : World) :
  create_animation_with_progress w
  = match fst (load_png w) with
    | Raise e => (Raise e, w)
    | Ok img =>
        match _create_frames_sequential img w with
        | (Ok _, w1) => save_gif w1
        | (Raise e, w1) => (Raise e, w1)
        end
    end.
Proof.
  unfold create_animation_with_progress. unfold bind at 1.
  pose proof (load_png_pure w) as Hpure.
  destruct (load_png w) as [r w0]. cbn [snd] in Hpure. subst w0. cbn [fst].
  destruct r as [img | e]; [| reflexivity].
  unfold bind at 1. cbn [get_self]. unfold bind at 1.
  rewrite progress_generation. reflexivity.
Qed.

Lemma sequential_pipeline_cases {pil : Pillow} (w : World) :
  (let* img := load_png in
   let* _ := _create_frames_sequential img in
   save_gif) w
  = match fst (load_png w) with
    | Raise e => (Raise e, w)
    | Ok img =>
        match _create_frames_sequential img w with
        | (Ok _, w1) => save_gif w1
        | (Raise e, w1) => (Raise e, w1)
        end
    end.
Proof.
  unfold bind at 1.
  pose proof (load_png_pure w) as Hpure.
  destruct (load_png w) as [r w0]. cbn [snd] in Hpure. subst w0. cbn [fst].
  destruct r as [img | e]; [| reflexivity].
  unfold bind at 1. reflexivity.
Qed.

(** X16.  The window always generates frames one after the other: whatever
    the multiprocessing setting, [create_animation_with_progress] is
    load, the sequential scheduler, save; so it is [create_animation]
    itself whenever that takes the sequential path.  Computing the
    progress value never raises inside the loop. *)
Theorem gui_generates_sequentially {pil : Pillow} (w : World) :
  create_animation_with_progress w
  = (let* img := load_png in
     let* _ := _create_frames_sequential img in
     save_gif) w /\
  (scheduler (self w) = Sequential ->
   create_animation_with_progress w = create_animation w).
Proof.
  rewrite progress_cases, sequential_pipeline_cases. split; [reflexivity |].
  intros Hsched. rewrite create_animation_cases. unfold generate. rewrite Hsched.
  reflexivity.
Qed.



(** ** The command line *)

Lemma main_body_unfold {pil : Pillow} (cpu_count : Z) (args : Args) (s : Animator)
    (d : Disk) :
  main_body cpu_count args (mkWorld s d)
  = create_animation
      (mkWorld
         (update_performance_options cpu_count
            (update_animation_params s (Some (arg_frames args))
               (Some (arg_bob_height args)) (Some (arg_duration args)))
            (negb (arg_no_multiprocessing args)) (negb (arg_no_numpy args))
            (negb (arg_no_optimize args)) (arg_max_workers args)) d).
Proof. reflexivity. Qed.

Lemma path_exists_spec (d : Disk) (path : string) :
  path_exists d path = true <-> is_Some (files d !! path).
Proof. unfold path_exists. apply bool_decide_eq_true. Qed.

(** X19.  How a run from the command line can end.  With an input argument
    and without [--gui]: if the input does not exist [main] exits with
    status 1 before an animator is made, leaving the disk as it was;
    in every case it either returns or exits with status 1, and changes
    no file other than the output path. *)
Theorem main_exits (cpu_count : Z) {pil : Pillow} (args : Args) (d : Disk)
    (c : Ascii.ascii) (rest : string) :
  arg_input args = Some (String c rest) -> arg_gui args = false ->
  (files d !! String c rest = None -> main cpu_count args d = (SysExit 1, d)) /\
  (fst (main cpu_count args d) = Returned \/ fst (main cpu_count args d) = SysExit 1) /\
  (forall p,
     p <> output_path (__init__ cpu_count (String c rest) (arg_output args)) ->
     files (snd (main cpu_count args d)) !! p = files d !! p).
Proof.
  intros Hin Hgui. unfold main. rewrite Hin, Hgui.
  destruct (path_exists d (String c rest)) eqn:Hex; cbn [negb].
  - split.
    { intros Hnone. apply path_exists_spec in Hex. rewrite Hnone in Hex.
      destruct Hex as [x Hx]. discriminate. }
    rewrite main_body_unfold.
    match goal with |- context [create_animation ?w] => set (w1 := w) end.
    destruct (create_animation_touches w1) as [_ Hfiles].
    destruct (create_animation w1) as [[[] | e] w2]; cbn [fst snd] in *.
    + split; [left; reflexivity | exact Hfiles].
    + split; [right; reflexivity | exact Hfiles].
  - split; [reflexivity |]. split; [right; reflexivity | reflexivity].
Qed.

Lemma main_exits_witness :
  arg_input (mkArgs (Some "missing.png") None 30 10 80 false false false false None)
  = Some "missing.png" /\
  main (pil := stub_pillow) 4
    (mkArgs (Some "missing.png") None 30 10 80 false false false false None) sample_disk
  = (SysExit 1, sample_disk).
Proof.
  split; [reflexivity |].
  apply (main_exits 4 (pil := stub_pillow)
           (mkArgs (Some "missing.png") None 30 10 80 false false false false None)
           sample_disk (Ascii.ascii_of_nat 109) "issing.png" eq_refl eq_refl).
  vm_compute. reflexivity.
Defined.

(** ** The window and the command line *)

Lemma create_frame_reads (s s' : Animator) (img : Image) (i : Z) :
  frame_count s = frame_count s' -> bob_height s = bob_height s' ->
  create_frame s img i = create_frame s' img i.
Proof. intros Hn Hb. unfold create_frame. rewrite Hn, Hb. reflexivity. Qed.

(** What [save_gif] does depends on the frames, the output path, the
    frame duration and the optimization switch only. *)
Lemma save_gif_reads {pil : Pillow} (s s' : Animator) (d : Disk) :
  same_animation s s' ->
  fst (save_gif (mkWorld s d)) = fst (save_gif (mkWorld s' d)) /\
  disk (snd (save_gif (mkWorld s d))) = disk (snd (save_gif (mkWorld s' d))).
Proof.
  intros Hsame. destruct s, s'. unfold same_animation in Hsame. cbn in Hsame.
  destruct Hsame as (-> & -> & -> & -> & -> & -> & ->).
  unfold save_gif, _save_optimized_gif, try_except, optimized_body, _save_standard_gif,
    bind, get_self, lift, raise, save_to.
  cbv beta iota delta [self disk frames optimize_gif output_path frame_duration].
  destruct frames1 as [| f fs]; [auto |].
  destruct optimize_gif1;
    [destruct (build_palette (f :: fs)) as [pal |];
       [destruct (quantize_frames (f :: fs) pal) as [[| q qs] |] |] |];
    cbn [fst snd];
    repeat match goal with
           | |- context [Image_save ?p ?g ?d] =>
               destruct (Image_save p g d); cbn [fst snd disk]
           end; auto.
Qed.

Lemma sequential_pipeline_reads {pil : Pillow} (s s' : Animator) (d : Disk) :
  same_animation s s' ->
  fst (sequential_pipeline (mkWorld s d)) = fst (sequential_pipeline (mkWorld s' d)) /\
  disk (snd (sequential_pipeline (mkWorld s d)))
  = disk (snd (sequential_pipeline (mkWorld s' d))).
Proof.
  intros Hsame. pose proof Hsame as (Hpng & Hout & Hfr & Hn & Hb & Hdur & Hopt).
  unfold sequential_pipeline.
  assert (Hload : fst (load_png (mkWorld s d)) = fst (load_png (mkWorld s' d))).
  { unfold load_png, try_except, bind, get_self, get_disk, lift. cbn [self disk].
    rewrite Hpng. destruct (Image_open d (png_path s')) as [a |]; [| reflexivity].
    destruct (decide (mode a = ModeRGBA)); reflexivity. }
  rewrite <- Hload. destruct (fst (load_png (mkWorld s d))) as [img | e]; [| auto].
  rewrite !sequential_spec. cbn zeta. cbn [self disk].
  rewrite <- Hn, <- Hfr.
  rewrite <- (collect_ext (create_frame s img) (create_frame s' img))
    by (intros i; apply create_frame_reads; assumption).
  destruct (collect (create_frame s img) (range (frame_count s))) as [fs [e |]];
    cbn [fst snd outcome_of]; [auto |].
  apply save_gif_reads. unfold same_animation. cbn. rewrite Hfr. auto 10.
Qed.

(** X20.  The window does what the command line does with
    [--no-multiprocessing].  For the same input, output, frame count,
    bob height, duration, optimization switch and worker count, and
    whatever the multiprocessing box of the window says, the button
    leaves the disk exactly as [main] does, and shows the success
    dialog exactly when [main] returns normally. *)
Theorem gui_matches_cli {pil : Pillow} (cpu_count : Z) (v : GuiVars) (d : Disk)
    (c : Ascii.ascii) (rest : string) :
  input_file v = String c rest ->
  snd (main cpu_count
         (mkArgs (Some (input_file v)) (Some (output_file v)) (var_frame_count v)
            (var_bob_height v) (var_frame_duration v) false true
            (negb (var_use_numpy_acceleration v)) (negb (var_optimize_gif v))
            (Some (var_max_workers v))) d)
  = snd (create_animation_thread cpu_count v d) /\
  (fst (main cpu_count
          (mkArgs (Some (input_file v)) (Some (output_file v)) (var_frame_count v)
             (var_bob_height v) (var_frame_duration v) false true
             (negb (var_use_numpy_acceleration v)) (negb (var_optimize_gif v))
             (Some (var_max_workers v))) d) = Returned <->
   fst (create_animation_thread cpu_count v d)
   = ShowInfo "Success" ("Animation saved as: " +:+ output_file v)).
Proof.
  intros Hin. unfold main, create_animation_thread. cbn [arg_input arg_gui arg_output].
  rewrite Hin. cbn [negb].
  change (gui_body cpu_count v ?w) with
    (create_animation_with_progress
       (mkWorld
          (update_performance_options cpu_count
             (update_animation_params (self w) (Some (var_frame_count v))
                (Some (var_bob_height v)) (Some (var_frame_duration v)))
             (var_use_multiprocessing v) (var_use_numpy_acceleration v)
             (var_optimize_gif v) (Some (var_max_workers v))) (disk w))).
  cbn [self disk]. rewrite <- Hin.
  match goal with |- context [create_animation_with_progress ?w] => set (wg := w) end.
  assert (Hg : create_animation_with_progress wg = sequential_pipeline wg)
    by apply progress_cases.
  rewrite Hg.
  destruct (path_exists d (input_file v)) eqn:Hex; cbn [negb].
  - rewrite main_body_unfold.
    match goal with |- context [create_animation ?w] => set (wc := w) end.
    assert (Hc : create_animation wc = sequential_pipeline wc).
    { rewrite create_animation_cases. unfold sequential_pipeline, generate.
      replace (scheduler (self wc)) with Sequential; [reflexivity |].
      symmetry. apply scheduler_sequential. left. reflexivity. }
    rewrite Hc.
    destruct (sequential_pipeline_reads (self wc) (self wg) d) as [Hfst Hdisk].
    { unfold same_animation. cbn. rewrite !negb_involutive. auto 10. }
    change (mkWorld (self wc) d) with wc in Hfst, Hdisk.
    change (mkWorld (self wg) d) with wg in Hfst, Hdisk.
    destruct (sequential_pipeline wc) as [[[] | ec] wc'];
      destruct (sequential_pipeline wg) as [[[] | eg] wg'];
      cbn [fst snd] in *; try discriminate.
    + split; [exact Hdisk | split; reflexivity].
    + split; [exact Hdisk | split; discriminate].
  - assert (Hnone : files d !! input_file v = None).
    { destruct (files d !! input_file v) eqn:Hf; [| reflexivity].
      assert (path_exists d (input_file v) = true)
        by (apply path_exists_spec; rewrite Hf; eauto).
      congruence. }
    unfold sequential_pipeline.
    rewrite (load_png_missing wg) by exact Hnone. cbn [fst snd disk].
    split; [reflexivity | split; discriminate].
Qed.

Lemma gui_matches_cli_witness :
  input_file sample_vars = "dot.png" /\
  snd (main (pil := plain_pillow) 4
         (mkArgs (Some "dot.png") (Some "dot_bobbing.gif") 6 3 80 false true false false
            (Some 4)) sample_disk)
  = snd (create_animation_thread (pil := plain_pillow) 4 sample_vars sample_disk).
Proof.
  split; [reflexivity |].
  exact (proj1 (gui_matches_cli (pil := plain_pillow) 4 sample_vars sample_disk
                  (Ascii.ascii_of_nat 100) "ot.png" eq_refl)).
Defined.

(** X21.  After "Reset to Defaults" the window configures the animator exactly
    as its constructor does: the run is the run of a new animator. *)
Theorem reset_defaults_is_constructor {pil : Pillow} (cpu_count : Z) (v : GuiVars)
    (png_path : string) (output_path : option string) (d : Disk) :
  gui_body cpu_count (reset_defaults cpu_count v)
    (mkWorld (__init__ cpu_count png_path output_path) d)
  = create_animation_with_progress
      (mkWorld (__init__ cpu_count png_path output_path) d).
Proof.
  change (gui_body cpu_count (reset_defaults cpu_count v)
            (mkWorld (__init__ cpu_count png_path output_path) d))
    with (create_animation_with_progress
            (mkWorld
               (update_performance_options cpu_count
                  (update_animation_params (__init__ cpu_count png_path output_path)
                     (Some 30) (Some 10) (Some 80))
                  true true true (Some (Z.min cpu_count 8))) d)).
  f_equal. f_equal. unfold update_performance_options, update_animation_params, __init__.
  cbn. f_equal. lia.
Qed.

(** ** The preview *)

Lemma py_getitem_in_range {A} (l : list A) (i : Z) :
  0 <= i < Z.of_nat (length l) ->
  exists a, py_getitem l i = Ok a /\ l !! Z.to_nat i = Some a.
Proof.
  intros Hi. unfold py_getitem. destruct (Z.ltb_spec i 0); [lia |].
  destruct (Z.ltb_spec i 0); [lia |].
  destruct (lookup_lt_is_Some_2 l (Z.to_nat i)) as [a Ha]; [lia |].
  exists a. rewrite Ha. auto.
Qed.

(** X22.  The preview player never indexes outside its frame list.  While it
    plays with its index inside the list, a tick shows the frame at the
    index, asks to be called again after at least 100 ms, and moves the
    index to the next frame, back to 0 after the last; the index stays
    inside the list.  After [stop_preview] a tick does nothing. *)
Theorem animate_preview_cycles (frame_duration : Z) (p : Player) :
  preview_playing p = true ->
  0 <= current_preview_frame p < Z.of_nat (length (preview_frames p)) ->
  exists frame next,
    animate_preview frame_duration p
    = Ok (Some (frame, Z.max 100 frame_duration),
          mkPlayer (preview_frames p) true next) /\
    preview_frames p !! Z.to_nat (current_preview_frame p) = Some frame /\
    0 <= next < Z.of_nat (length (preview_frames p)) /\
    (current_preview_frame p + 1 < Z.of_nat (length (preview_frames p)) ->
     next = current_preview_frame p + 1) /\
    (current_preview_frame p + 1 = Z.of_nat (length (preview_frames p)) -> next = 0) /\
    100 <= Z.max 100 frame_duration /\
    animate_preview frame_duration (stop_preview p) = Ok (None, stop_preview p).
Proof.
  intros Hplay Hcur.
  destruct (py_getitem_in_range (preview_frames p) (current_preview_frame p) Hcur)
    as (frame & Hget & Hlook).
  exists frame,
    ((current_preview_frame p + 1) `mod` Z.of_nat (length (preview_frames p))).
  split.
  { unfold animate_preview. rewrite Hplay. cbn [negb].
    destruct (preview_frames p) as [| f fs] eqn:Hfs; [cbn in Hcur; lia |].
    rewrite Hget. reflexivity. }
  split; [exact Hlook |].
  split; [apply Z.mod_pos_bound; lia |].
  split; [intros Hlt; apply Z.mod_small; lia |].
  split; [intros ->; apply Z.mod_same; lia |].
  split; [lia | reflexivity].
Qed.

Lemma animate_preview_cycles_witness :
  preview_playing (mkPlayer [red_dot; grey_dot] true 1) = true /\
  0 <= 1 < Z.of_nat (length [red_dot; grey_dot]) /\
  animate_preview 80 (mkPlayer [red_dot; grey_dot] true 1)
  = Ok (Some (grey_dot, 100), mkPlayer [red_dot; grey_dot] true 0).
Proof.
  split; [reflexivity |]. split; [cbn; lia |].
  destruct (animate_preview_cycles 80 (mkPlayer [red_dot; grey_dot] true 1)
              eq_refl ltac:(cbn; lia))
    as (frame & next & Hrun & Hlook & _ & _ & Hwrap & _).
  rewrite Hrun. cbn in Hlook. injection Hlook as <-.
  rewrite (Hwrap eq_refl). reflexivity.
Defined.

Lemma result_mapM_length {A B} (f : A -> result B) (l : list A) (bs : list B) :
  result_mapM f l = Ok bs -> length bs = length l.
Proof.
  intros Hm. apply result_mapM_Forall2 in Hm. symmetry.
  exact (Forall2_length _ _ _ Hm).
Qed.

(** X23.  The preview is a whole bob cycle in at most 15 frames.  Whenever
    [create_preview_thread] delivers frames, there are exactly
    [min(15, frame_count)] of them (none for a frame count below 1), and
    frame [k] is the resized frame [k] of an animation whose frame
    count is that minimum, not the configured frame count. *)
Theorem preview_is_short_cycle {pil : Pillow} {lm : Libm} {rs : Resampler}
    (cpu_count : Z) (v : GuiVars) (d : Disk) :
  match create_preview_thread cpu_count v d with
  | None => True
  | Some shown =>
      length shown = Z.to_nat (Z.min 15 (var_frame_count v)) /\
      (length shown <= 15)%nat /\
      exists img,
        fst (load_png (mkWorld (__init__ cpu_count (input_file v) (Some EmptyString)) d))
        = Ok img /\
        forall k frame, shown !! k = Some frame ->
          preview_frame
            (update_animation_params
               (__init__ cpu_count (input_file v) (Some EmptyString))
               (Some (Z.min 15 (var_frame_count v))) (Some (var_bob_height v))
               (Some (Z.max 100 (var_frame_duration v))))
            img (Z.of_nat k) = Ok frame
  end.
Proof.
  unfold create_preview_thread, preview_body. unfold bind at 1.
  unfold set_animation_params at 1, modify_self at 1. cbn [self disk].
  match goal with |- context [update_animation_params ?a ?b ?c ?e] =>
    set (s1 := update_animation_params a b c e) end.
  unfold bind at 1.
  assert (Hload : fst (load_png (mkWorld s1 d))
                  = fst (load_png (mkWorld (__init__ cpu_count (input_file v)
                                              (Some EmptyString)) d))).
  { unfold load_png, try_except, bind, get_self, get_disk, lift. cbn [self disk].
    change (png_path s1) with (input_file v).
    change (png_path (__init__ cpu_count (input_file v) (Some EmptyString)))
      with (input_file v).
    destruct (Image_open d (input_file v)) as [a |]; [| reflexivity].
    destruct (decide (mode a = ModeRGBA)); reflexivity. }
  rewrite (load_png_result (mkWorld s1 d)).
  destruct (fst (load_png (mkWorld s1 d))) as [img | e] eqn:Himg; [| exact I].
  unfold bind at 1. cbn [get_self self]. unfold lift.
  destruct (result_mapM (preview_frame s1 img) (range (Z.min 15 (var_frame_count v))))
    as [shown | e] eqn:Hshown; [| exact I].
  pose proof (result_mapM_length _ _ _ Hshown) as Hlen. rewrite range_length in Hlen.
  split; [exact Hlen |]. split; [lia |].
  exists img. split; [symmetry; exact Hload |].
  intros k frame Hk.
  pose proof (result_mapM_Forall2 _ _ _ Hshown) as Hall.
  destruct (Forall2_lookup_r _ _ _ _ _ Hall Hk) as (i & Hi & Hframe).
  unfold range in Hi. apply lookup_seqZ in Hi as [-> _].
  rewrite Z.add_0_l in Hframe. exact Hframe.
Qed.

(** ** The default output path *)

Lemma has_char_append (q : Ascii.ascii -> bool) (s1 s2 : string) :
  has_char q (s1 +:+ s2) = has_char q s1 || has_char q s2.
Proof.
  induction s1 as [| c s1 IH]; [reflexivity |].
  change (String c s1 +:+ s2) with (String c (s1 +:+ s2)).
  cbn [has_char]. rewrite IH. apply orb_assoc.
Qed.

Lemma basename_no_sep (p : string) : has_char is_sep (basename p) = false.
Proof.
  induction p as [| c rest IH]; [reflexivity |].
  cbn [basename]. destruct (has_char is_sep rest) eqn:Hrest; [exact IH |].
  destruct (is_sep c) eqn:Hc; [exact Hrest |].
  cbn. rewrite Hc, Hrest. reflexivity.
Qed.

Lemma cut_last_dot_no_sep (s : string) :
  has_char is_sep s = false -> has_char is_sep (cut_last_dot s) = false.
Proof.
  induction s as [| c rest IH]; [reflexivity |].
  cbn. intros Hs. apply orb_false_iff in Hs as [Hc Hrest].
  destruct (has_char is_dot rest); [| reflexivity].
  cbn. rewrite Hc. apply IH, Hrest.
Qed.

Lemma splitext_root_no_sep (s : string) :
  has_char is_sep s = false -> has_char is_sep (splitext_root s) = false.
Proof.
  intros Hs. unfold splitext_root. destruct (has_char is_dot s); [| exact Hs].
  destruct (all_chars is_dot (cut_last_dot s)); [exact Hs |].
  apply cut_last_dot_no_sep, Hs.
Qed.

Lemma basename_of_path (dir name : string) :
  has_char is_sep name = false -> basename (dir +:+ "/" +:+ name) = name.
Proof.
  intros Hname. induction dir as [| c dir IH].
  - change ("" +:+ "/" +:+ name) with (String (Ascii.ascii_of_nat 47) name).
    cbn [basename]. rewrite Hname. reflexivity.
  - change (String c dir +:+ "/" +:+ name) with (String c (dir +:+ "/" +:+ name)).
    cbn [basename]. rewrite has_char_append.
    change ("/" +:+ name) with (String (Ascii.ascii_of_nat 47) name) at 1.
    cbn [has_char]. change (is_sep (Ascii.ascii_of_nat 47)) with true.
    rewrite orb_true_r. exact IH.
Qed.

Lemma cut_last_dot_of_name (stem ext : string) :
  has_char is_dot ext = false -> cut_last_dot (stem +:+ "." +:+ ext) = stem.
Proof.
  intros Hext. induction stem as [| c stem IH].
  - change ("" +:+ "." +:+ ext) with (String (Ascii.ascii_of_nat 46) ext).
    cbn [cut_last_dot]. rewrite Hext. reflexivity.
  - change (String c stem +:+ "." +:+ ext) with (String c (stem +:+ "." +:+ ext)).
    cbn [cut_last_dot]. rewrite has_char_append.
    change ("." +:+ ext) with (String (Ascii.ascii_of_nat 46) ext) at 1.
    cbn [has_char]. change (is_dot (Ascii.ascii_of_nat 46)) with true.
    rewrite orb_true_r, IH. reflexivity.
Qed.

(** X24.  The default output is a bare file name next to nothing: whatever
    directory the input is in, [_get_default_output_path] contains no
    path separator, so the GIF goes to the working directory.  For an
    input [dir/stem.ext], where [stem] has no separator and is not made
    of dots only and [ext] has neither dot nor separator, it is
    [stem_bobbing.gif]. *)
Theorem default_output_path_is_local (dir stem ext : string) (p : string) :
  has_char is_sep (_get_default_output_path p) = false /\
  (has_char is_sep stem = false -> all_chars is_dot stem = false ->
   has_char is_dot ext = false -> has_char is_sep ext = false ->
   _get_default_output_path (dir +:+ "/" +:+ stem +:+ "." +:+ ext)
   = stem +:+ "_bobbing.gif").
Proof.
  split.
  - unfold _get_default_output_path. rewrite has_char_append.
    rewrite splitext_root_no_sep by apply basename_no_sep. reflexivity.
  - intros Hstem Hdots Hext Hsep. unfold _get_default_output_path.
    rewrite basename_of_path
      by (rewrite has_char_append, Hstem; exact Hsep).
    unfold splitext_root. rewrite has_char_append.
    change ("." +:+ ext) with (String (Ascii.ascii_of_nat 46) ext) at 1.
    cbn [has_char]. change (is_dot (Ascii.ascii_of_nat 46)) with true.
    rewrite orb_true_r.
    rewrite cut_last_dot_of_name by exact Hext. rewrite Hdots. reflexivity.
Qed.
